(** * A single-tape Turing machine simulator (T-u-ring.py)

    Shallow embedding of the [TuringMachine] class: the description reader
    [read_machine], the action procedure [Action.take_action] and the
    execution loop [execute], together with the handful of Python built-ins
    they rely on.

    Conventions.
    - Python integers are unbounded: they are [Z].
    - A Python [str] is a [string]; characters are the 8-bit [ascii] of the
      standard library, read as the code points 0 to 255, so the development
      speaks about descriptions written in one-byte characters.
    - The tape is a Python list of one-character strings: [list string].
    - [action_table] is a [defaultdict(dict)]: a [gmap Z (gmap string Action)]
      whose subscript operation creates missing entries.
    - Mutation of [self] is explicit state passing; an uncaught exception or
      an early [return] is a constructor of the outcome type.
    - [execute] is a [while] loop with no bound; the model takes fuel and
      answers [None] only when the fuel runs out. *)

From Stdlib Require Import ZArith String Ascii Lia.
From stdpp Require Import base gmap list strings.

Local Open Scope Z_scope.

(** ** Python built-ins used by the program *)

Module Py.

(** Blank characters skipped by [int()] around a numeral: tab to carriage
    return (9-13), space (32) and, of the one-byte characters above 127,
    next line (133) and no-break space (160). *)
Definition is_space (c : ascii) : bool :=
  let n := nat_of_ascii c in
  (((9 <=? n) && (n <=? 13)) || (n =? 32) || (n =? 133) || (n =? 160))%nat.

Definition digit_val (c : ascii) : option Z :=
  let n := Z.of_nat (nat_of_ascii c) in
  if (48 <=? n) && (n <=? 57) then Some (n - 48) else None.

Fixpoint lstrip (s : string) : string :=
  match s with
  | EmptyString => EmptyString
  | String c s' => if is_space c then lstrip s' else s
  end.

Definition strip (s : string) : string :=
  String.rev (lstrip (String.rev (lstrip s))).

(** Decimal digits, where single underscores may separate digits. The flag
    says whether the previous character was a digit. *)
Fixpoint int_digits (acc : Z) (after_digit : bool) (s : string) : option Z :=
  match s with
  | EmptyString => if after_digit then Some acc else None
  | String c s' =>
      match digit_val c with
      | Some d => int_digits (10 * acc + d) true s'
      | None =>
          if Ascii.eqb c "_" then
            if after_digit then int_digits acc false s' else None
          else None
      end
  end.

(** Number of decimal digits of a numeral, underscores not counted. *)
Fixpoint count_digits (s : string) : N :=
  match s with
  | EmptyString => 0%N
  | String c s' =>
      match digit_val c with
      | Some _ => N.succ (count_digits s')
      | None => count_digits s'
      end
  end.

(** The interpreter's default limit on the digits of a decimal numeral
    ([sys.int_info.default_max_str_digits]). *)
Definition int_max_str_digits : N := 4300%N.

(** [int(s)] in base ten; [None] stands for [ValueError]. The numeral may
    be surrounded by blanks and carry one sign; a numeral of more digits
    than the interpreter's limit is refused. *)
Definition int (s : string) : option Z :=
  let '(negative, r) :=
    match strip s with
    | String "+"%char r => (false, r)
    | String "-"%char r => (true, r)
    | r => (false, r)
    end in
  v ← int_digits 0 false r;
  if (int_max_str_digits <? count_digits r)%N then None
  else Some (if negative then - v else v).

(** [s.split(sep)] for a one-character separator: every occurrence cuts,
    so adjacent separators give empty fields. *)
Fixpoint split (sep : ascii) (s : string) : list string :=
  match s with
  | EmptyString => [EmptyString]
  | String c s' =>
      if Ascii.eqb c sep then EmptyString :: split sep s'
      else match split sep s' with
           | w :: ws => String c w :: ws
           | [] => [String c EmptyString]
           end
  end.

(** [list(s)]: the one-character strings of [s]. *)
Fixpoint list_of_str (s : string) : list string :=
  match s with
  | EmptyString => []
  | String c s' => String c EmptyString :: list_of_str s'
  end.

(** [join] with the empty separator, as [execute] calls it. *)
Definition join (l : list string) : string := foldr String.append EmptyString l.

(** Position designated by a list subscript: negative subscripts count
    from the end, anything else out of range is an [IndexError] ([None]). *)
Definition index (len : nat) (i : Z) : option nat :=
  if decide (0 <= i < Z.of_nat len) then Some (Z.to_nat i)
  else if decide (- Z.of_nat len <= i < 0)
       then Some (Z.to_nat (Z.of_nat len + i))
  else None.

Definition getitem {A} (l : list A) (i : Z) : option A :=
  index (length l) i ≫= (l !!.).

Definition setitem {A} (l : list A) (i : Z) (x : A) : option (list A) :=
  (λ n, <[n:=x]> l) <$> index (length l) i.

(** [d[k]] on a [defaultdict]: a missing key is first bound to the
    default value, which changes the dictionary. *)
Definition defaultdict_getitem `{Countable K} {V} (default : V)
    (d : gmap K V) (k : K) : V * gmap K V :=
  match d !! k with
  | Some v => (v, d)
  | None => (default, <[k:=default]> d)
  end.

End Py.

(** ** The machine *)

Record Action := {
  write : string;
  direction : Z;
  new_state : Z
}.

Record TuringMachine := {
  head : Z;
  state : Z;
  halt_state : Z;
  tape_contents : list string;
  action_table : gmap Z (gmap string Action)
}.

(** [TuringMachine.__init__]. *)
Definition init : TuringMachine :=
  {| head := 0; state := 0; halt_state := 0;
     tape_contents := []; action_table := ∅ |}.

Definition set_head (h : Z) (tm : TuringMachine) : TuringMachine :=
  {| head := h; state := state tm; halt_state := halt_state tm;
     tape_contents := tape_contents tm; action_table := action_table tm |}.

Definition set_state (s : Z) (tm : TuringMachine) : TuringMachine :=
  {| head := head tm; state := s; halt_state := halt_state tm;
     tape_contents := tape_contents tm; action_table := action_table tm |}.

Definition set_halt_state (s : Z) (tm : TuringMachine) : TuringMachine :=
  {| head := head tm; state := state tm; halt_state := s;
     tape_contents := tape_contents tm; action_table := action_table tm |}.

Definition set_tape_contents (t : list string) (tm : TuringMachine)
    : TuringMachine :=
  {| head := head tm; state := state tm; halt_state := halt_state tm;
     tape_contents := t; action_table := action_table tm |}.

Definition set_action_table (tbl : gmap Z (gmap string Action))
    (tm : TuringMachine) : TuringMachine :=
  {| head := head tm; state := state tm; halt_state := halt_state tm;
     tape_contents := tape_contents tm; action_table := tbl |}.

(** [self.action_table[k]], with the dictionary's auto-creation. *)
Definition table_getitem (tm : TuringMachine) (k : Z)
    : gmap string Action * TuringMachine :=
  let '(acts, tbl) := Py.defaultdict_getitem ∅ (action_table tm) k in
  (acts, set_action_table tbl tm).

Inductive exn := IndexError | KeyError.

(** ** [Action.take_action]

    [None] is the [IndexError] of the assignment on line 45; it is raised
    before anything has been changed. *)
Definition take_action (self : Action) (tm : TuringMachine)
    : option TuringMachine :=
  tape1 ← (if decide (write self ≠ "*")
           then Py.setitem (tape_contents tm) (head tm) (write self)
           else Some (tape_contents tm));
  let head1 := head tm + direction self in
  let '(tape2, head2) :=
    if decide (head1 < 0) then ("-" :: tape1, 0)
    else if decide (Z.of_nat (length tape1) <= head1)
         then (tape1 ++ ["-"], head1)
    else (tape1, head1) in
  Some {| head := head2; state := new_state self;
          halt_state := halt_state tm;
          tape_contents := tape2; action_table := action_table tm |}.

(** ** [execute] *)

(** What one pass through the body of the [while] loop does. *)
Inductive step_result :=
| ReturnNone (tm : TuringMachine)
| Raised (e : exn) (tm : TuringMachine)
| Stepped (tm : TuringMachine).

(** Lines 201-215: the key under which the action is looked up. The tape
    is read before the table is subscripted. *)
Definition select_read (c : string) (tm : TuringMachine)
    : option string * TuringMachine :=
  let '(acts, tm) := table_getitem tm (state tm) in
  if decide (is_Some (acts !! c)) then (Some c, tm)
  else
    let '(acts, tm) := table_getitem tm (state tm) in
    if decide (is_Some (acts !! "*")) then (Some "*", tm)
    else (None, tm).

(** Lines 201-220 up to the subscript [self.action_table[self.state][read]]:
    which action, if any, the step is going to take. *)
Inductive dispatch_result :=
| NoAction (tm : TuringMachine)
| Fault (e : exn) (tm : TuringMachine)
| Dispatch (a : Action) (tm : TuringMachine).

Definition dispatch (tm : TuringMachine) : dispatch_result :=
  if decide (state tm ∉ dom (action_table tm)) then NoAction tm
  else
    match Py.getitem (tape_contents tm) (head tm) with
    | None => Fault IndexError tm
    | Some c =>
        let '(read, tm) := select_read c tm in
        match read with
        | None => NoAction tm
        | Some read =>
            let '(acts, tm) := table_getitem tm (state tm) in
            match acts !! read with
            | None => Fault KeyError tm
            | Some a => Dispatch a tm
            end
        end
    end.

(** The body of the loop: dispatch, then [take_action()]. *)
Definition loop_body (tm : TuringMachine) : step_result :=
  match dispatch tm with
  | NoAction tm => ReturnNone tm
  | Fault e tm => Raised e tm
  | Dispatch a tm =>
      match take_action a tm with
      | None => Raised IndexError tm
      | Some tm' => Stepped tm'
      end
  end.

Inductive result :=
| Trace (all_tape_contents : list string)
| PyNone
| Uncaught (e : exn).

(** The [while] loop of lines 197-229, [all] being [all_tape_contents]. *)
Fixpoint while_loop (fuel : nat) (tm : TuringMachine) (all : list string)
    : option (result * TuringMachine) :=
  match fuel with
  | O => None
  | S fuel' =>
      if decide (state tm ≠ halt_state tm) then
        match loop_body tm with
        | ReturnNone tm' => Some (PyNone, tm')
        | Raised e tm' => Some (Uncaught e, tm')
        | Stepped tm' =>
            while_loop fuel' tm' (all ++ [Py.join (tape_contents tm')])
        end
      else Some (Trace all, tm)
  end.

Definition execute (fuel : nat) (tm : TuringMachine)
    : option (result * TuringMachine) :=
  while_loop fuel tm [Py.join (tape_contents tm)].

(** [execute()] called on [tm] returns (or raises) [r] and leaves the
    machine as [tm']. *)
Definition execute_returns (tm : TuringMachine) (r : result)
    (tm' : TuringMachine) : Prop :=
  ∃ fuel, execute fuel tm = Some (r, tm').

(** ** [read_machine] *)

(** What reading one line of the action table does. *)
Inductive parse_step :=
| ReturnFalse (tm : TuringMachine)
| ValueError (tm : TuringMachine)
| Parsed (tm : TuringMachine).

(** Lines 156-175. The list pattern is the test [len(line) < 5]; the
    right-hand side of the assignment is evaluated before its target. *)
Definition read_action_line (tm : TuringMachine) (l : string) : parse_step :=
  match Py.split " " l with
  | f0 :: f1 :: f2 :: f3 :: f4 :: _ =>
      if decide (1 < String.length f1)%nat then ReturnFalse tm
      else if decide (1 < String.length f2)%nat then ReturnFalse tm
      else
        match Py.int f3 with
        | None => ValueError tm
        | Some d =>
            if decide (1 < Z.abs d) then ReturnFalse tm
            else
              match Py.int f4 with
              | None => ValueError tm
              | Some ns =>
                  match Py.int f0 with
                  | None => ValueError tm
                  | Some st =>
                      let a := {| write := f2; direction := d;
                                  new_state := ns |} in
                      let '(acts, tm) := table_getitem tm st in
                      Parsed (set_action_table
                                (<[st := <[f1 := a]> acts]> (action_table tm))
                                tm)
                  end
              end
        end
  | _ => ReturnFalse tm
  end.

(** The [for] loop of line 138. *)
Fixpoint read_action_lines (tm : TuringMachine) (ls : list string)
    : parse_step :=
  match ls with
  | [] => Parsed tm
  | l :: ls' =>
      match read_action_line tm l with
      | Parsed tm' => read_action_lines tm' ls'
      | stop => stop
      end
  end.

(** [read_machine], from the list of lines of the file. The flag is the
    returned value; assignments made before a failure stay. *)
Definition read_machine (tm : TuringMachine) (lines : list string)
    : bool * TuringMachine :=
  match lines with
  | l0 :: l1 :: l2 :: l3 :: rest =>
      let tm := set_tape_contents (Py.list_of_str l0) tm in
      match Py.int l1 with
      | None => (false, tm)
      | Some h =>
          let tm := set_head h tm in
          match Py.int l2 with
          | None => (false, tm)
          | Some s =>
              let tm := set_state s tm in
              match Py.int l3 with
              | None => (false, tm)
              | Some hs =>
                  let tm := set_halt_state hs tm in
                  match read_action_lines tm rest with
                  | Parsed tm' => (true, tm')
                  | ReturnFalse tm' | ValueError tm' => (false, tm')
                  end
              end
          end
      end
  | _ => (false, tm)
  end.

(** ** The scenarios of the specification *)

Definition mk_action (w : string) (d ns : Z) : Action :=
  {| write := w; direction := d; new_state := ns |}.

(** Scenario A: tape "101", head 0, start state 0, halt state 1 and the
    transitions (0,'1','0',1,0) and (0,'0','*',1,1). *)
Definition scenario_A : TuringMachine :=
  {| head := 0; state := 0; halt_state := 1;
     tape_contents := ["1"; "0"; "1"];
     action_table :=
       {[ 0 := <["0" := mk_action "*" 1 1]>
                 (<["1" := mk_action "0" 1 0]> ∅) ]} |}.

Definition scenario_A_lines : list string :=
  ["101"; "0"; "0"; "1"; "0 1 0 1 0"; "0 0 * 1 1"].

Definition scenario_A_final : TuringMachine :=
  {| head := 2; state := 1; halt_state := 1;
     tape_contents := ["0"; "0"; "1"];
     action_table := action_table scenario_A |}.

(** Scenario B: tape "0", head 0, start state 0, halt state 9 and the
    single transition (0,'1','0',1,1). *)
Definition scenario_B : TuringMachine :=
  {| head := 0; state := 0; halt_state := 9;
     tape_contents := ["0"];
     action_table := {[ 0 := <["1" := mk_action "0" 1 1]> ∅ ]} |}.

Definition scenario_B_lines : list string :=
  ["0"; "0"; "0"; "9"; "0 1 0 1 1"].


(** ** Predicates used in the statements *)

(** [tm'] is a configuration the loop of [execute] reaches from [tm]: each
    pass was entered with the state different from the halt state and ran to
    its end. *)
Inductive reaches : TuringMachine → TuringMachine → Prop :=
| reaches_here tm : reaches tm tm
| reaches_step tm tm1 tm2 :
    state tm ≠ halt_state tm →
    loop_body tm = Stepped tm1 →
    reaches tm1 tm2 →
    reaches tm tm2.

(** The head designates a cell of the tracked tape. *)
Definition in_bounds (tm : TuringMachine) : Prop :=
  0 <= head tm < Z.of_nat (length (tape_contents tm)).

(** Every action of the table moves by -1, 0 or 1, as the class documents
    for [Action.direction] and as [read_machine] enforces. *)
Definition moves_ok (tbl : gmap Z (gmap string Action)) : Prop :=
  map_Forall (λ _ acts,
    map_Forall (λ _ a, -1 <= direction a <= 1) (acts : gmap string Action))
    tbl.

(** The current state and the symbol under the head match neither an exact
    entry nor a wildcard entry; a state without any entry is the first
    case. *)
Definition no_transition (tm : TuringMachine) : Prop :=
  match action_table tm !! state tm with
  | None => True
  | Some acts =>
      ∃ c, Py.getitem (tape_contents tm) (head tm) = Some c ∧
           acts !! c = None ∧ acts !! "*" = None
  end.

(** The tape after the write of lines 44-45. *)
Definition written (a : Action) (tm : TuringMachine) : option (list string) :=
  if decide (write a ≠ "*")
  then Py.setitem (tape_contents tm) (head tm) (write a)
  else Some (tape_contents tm).

(** Number of cells [take_action] puts in front of the tape. *)
Definition prepended (a : Action) (tm : TuringMachine) : nat :=
  if decide (head tm + direction a < 0) then 1%nat else 0%nat.

(** *** The validation rules of the description *)

(** A transition line that the reader refuses: split on single spaces it
    has fewer than five fields, or a read or write field longer than one
    character, or a direction that is no integer or is outside -1..1, or a
    state or new-state field that is no integer. *)
Definition line_rejected (l : string) : Prop :=
  let line := Py.split " " l in
  (length line < 5)%nat ∨
  (1 < String.length (line !!! 1%nat))%nat ∨
  (1 < String.length (line !!! 2%nat))%nat ∨
  Py.int (line !!! 3%nat) = None ∨
  (∃ d, Py.int (line !!! 3%nat) = Some d ∧ 1 < Z.abs d) ∨
  Py.int (line !!! 0%nat) = None ∨
  Py.int (line !!! 4%nat) = None.

Definition description_rejected (lines : list string) : Prop :=
  (length lines < 4)%nat ∨
  Py.int (lines !!! 1%nat) = None ∨
  Py.int (lines !!! 2%nat) = None ∨
  Py.int (lines !!! 3%nat) = None ∨
  Exists line_rejected (drop 4 lines).

(** A transition line in the documented format: at least five fields, of
    which the first five are an integer, two one-character fields, a
    direction in -1..1 and an integer. *)
Definition line_well_formed (l : string) : Prop :=
  ∃ f0 f1 f2 f3 f4 more st d ns,
    Py.split " " l = f0 :: f1 :: f2 :: f3 :: f4 :: more ∧
    String.length f1 = 1%nat ∧ String.length f2 = 1%nat ∧
    Py.int f0 = Some st ∧
    Py.int f3 = Some d ∧ Z.abs d <= 1 ∧
    Py.int f4 = Some ns.

Definition description_well_formed (lines : list string) : Prop :=
  (4 <= length lines)%nat ∧
  is_Some (Py.int (lines !!! 1%nat)) ∧
  is_Some (Py.int (lines !!! 2%nat)) ∧
  is_Some (Py.int (lines !!! 3%nat)) ∧
  Forall line_well_formed (drop 4 lines).

(** The rules in the wording of the specification, where a transition line
    has exactly five fields and its read and write fields exactly one
    character. *)
Definition line_exactly_five (l : string) : Prop :=
  ∃ f0 f1 f2 f3 f4 st d ns,
    Py.split " " l = [f0; f1; f2; f3; f4] ∧
    String.length f1 = 1%nat ∧ String.length f2 = 1%nat ∧
    Py.int f0 = Some st ∧
    Py.int f3 = Some d ∧ Z.abs d <= 1 ∧
    Py.int f4 = Some ns.

Definition stated_rules (lines : list string) : Prop :=
  (4 <= length lines)%nat ∧
  is_Some (Py.int (lines !!! 1%nat)) ∧
  is_Some (Py.int (lines !!! 2%nat)) ∧
  is_Some (Py.int (lines !!! 3%nat)) ∧
  Forall line_exactly_five (drop 4 lines).

(** *** Concrete descriptions and machines *)

(** A transition line with a sixth field. *)
Definition extra_field_lines : list string :=
  ["101"; "0"; "0"; "1"; "0 1 0 1 0 9"].

(** A transition line whose read field is empty (two adjacent spaces). *)
Definition empty_field_lines : list string :=
  ["1"; "0"; "0"; "1"; "0  1 1 1"].

(** Head offsets outside the tape. *)
Definition oversized_head_lines : list string :=
  ["101"; "5"; "0"; "1"; "0 1 0 1 0"].

Definition negative_head_lines : list string :=
  ["101"; "-1"; "0"; "1"; "0 1 0 1 0"].

Definition oversized_head_machine : TuringMachine :=
  {| head := 5; state := 0; halt_state := 1;
     tape_contents := ["1"; "0"; "1"];
     action_table := {[ 0 := <["1" := mk_action "0" 1 0]> ∅ ]} |}.

Definition negative_head_machine : TuringMachine :=
  {| head := -1; state := 0; halt_state := 1;
     tape_contents := ["1"; "0"; "1"];
     action_table := {[ 0 := <["1" := mk_action "0" 1 0]> ∅ ]} |}.

(** A writing action that moves left from the first cell. *)
Definition underflow_machine : TuringMachine :=
  {| head := 0; state := 0; halt_state := 1;
     tape_contents := ["1"];
     action_table := {[ 0 := <["1" := mk_action "0" (-1) 1]> ∅ ]} |}.

(** A state with an exact entry for "a" and a wildcard entry. *)
Definition precedence_machine : TuringMachine :=
  {| head := 0; state := 0; halt_state := 1;
     tape_contents := ["a"];
     action_table :=
       {[ 0 := <["*" := mk_action "w" 0 1]>
                 (<["a" := mk_action "e" 1 1]> ∅) ]} |}.

(** *** Further notions *)

(** [reaches] with the number of completed passes. *)
Inductive reaches_in : nat → TuringMachine → TuringMachine → Prop :=
| reaches_in_O tm : reaches_in 0 tm tm
| reaches_in_S n tm tm1 tm2 :
    state tm ≠ halt_state tm →
    loop_body tm = Stepped tm1 →
    reaches_in n tm1 tm2 →
    reaches_in (S n) tm tm2.

(** The head is outside what a subscript of the tape accepts, negative
    subscripts included. *)
Definition head_out_of_range (tm : TuringMachine) : Prop :=
  head tm < - Z.of_nat (length (tape_contents tm)) ∨
  Z.of_nat (length (tape_contents tm)) <= head tm.

(** The action stored for a state and a read symbol:
    [action_table[s][c]] when both keys are present. *)
Definition entry (tbl : gmap Z (gmap string Action)) (s : Z) (c : string)
    : option Action :=
  tbl !! s ≫= (.!! c).

(** The line of the action table [l] is written for state [st] and read
    field [c]. *)
Definition line_key_is (l : string) (st : Z) (c : string) : Prop :=
  ∃ f0 f2 f3 f4 more,
    Py.split " " l = f0 :: c :: f2 :: f3 :: f4 :: more ∧ Py.int f0 = Some st.

(** No state of the table is bound to an empty dictionary. *)
Definition no_empty_state (tbl : gmap Z (gmap string Action)) : Prop :=
  ∀ s acts, tbl !! s = Some acts → acts ≠ ∅.


(** The header of the machine: everything but the table. *)
Definition same_header (tm tm' : TuringMachine) : Prop :=
  head tm' = head tm ∧ state tm' = state tm ∧
  halt_state tm' = halt_state tm ∧ tape_contents tm' = tape_contents tm.

(** The machine as an early [return], an exception or a completed line
    leaves it. *)
Definition step_machine (r : parse_step) : TuringMachine :=
  match r with ReturnFalse tm | ValueError tm | Parsed tm => tm end.

(** [tm'] is [tm] after one more accepted line of the action table. *)
Definition line_stored (tm tm' : TuringMachine) : Prop :=
  ∃ l, read_action_line tm l = Parsed tm'.

(** What validation guarantees of a stored entry: a move of -1, 0 or 1, a
    write field and a read key of at most one character. *)
Definition entries_valid (tbl : gmap Z (gmap string Action)) : Prop :=
  ∀ s c a, entry tbl s c = Some a →
           -1 <= direction a <= 1 ∧
           (String.length (write a) <= 1)%nat ∧
           (String.length c <= 1)%nat.

(** An action that neither writes, nor moves, nor changes state. *)
Definition stationary_machine : TuringMachine :=
  {| head := 0; state := 0; halt_state := 1;
     tape_contents := ["a"];
     action_table := {[ 0 := <["a" := mk_action "*" 0 0]> ∅ ]} |}.

(** Two lines for the same state and read symbol. *)
Definition overwrite_lines : list string :=
  ["101"; "0"; "0"; "1"; "0 1 0 1 0"; "0 1 x -1 7"].

(** ** Sanity checks of the built-ins *)

Example int_examples :
  Py.int "42" = Some 42 ∧ Py.int "-1" = Some (-1) ∧ Py.int " +7 " = Some 7 ∧
  Py.int "1_000" = Some 1000 ∧ Py.int EmptyString = None ∧ Py.int "1__0" = None ∧
  Py.int "- 1" = None ∧ Py.int "x" = None ∧ Py.int "007" = Some 7.
Proof. repeat split; reflexivity. Qed.

(** A no-break space around the numeral is skipped; the separators 28-31
    are not. *)
Example int_blank_examples :
  Py.int (String "160" "5") = Some 5 ∧
  Py.int (String "133" "5") = Some 5 ∧
  Py.int (String "009" "5") = Some 5 ∧
  Py.int (String "028" "5") = None.
Proof. repeat split; reflexivity. Qed.

(** The limit on the number of digits: 4300 digits are read, 4301 are
    refused, also when most of them are leading zeros. *)
Example int_digit_limit :
  is_Some (Py.int (string_of_list_ascii (replicate 4300 "1"%char))) ∧
  Py.int (string_of_list_ascii (replicate 4301 "1"%char)) = None ∧
  Py.int (string_of_list_ascii (replicate 4301 "0"%char)) = None ∧
  Py.int (string_of_list_ascii ("-"%char :: replicate 4300 "0"%char))
  = Some 0.
Proof.
  split; [|split; [|split]]; try (vm_compute; reflexivity).
  apply (bool_decide_unpack _). vm_compute. exact I.
Qed.

Example split_examples :
  Py.split " " "0 1 0 1 0" = ["0"; "1"; "0"; "1"; "0"] ∧
  Py.split " " "0  1 1 1" = ["0"; EmptyString; "1"; "1"; "1"] ∧
  Py.split " " EmptyString = [EmptyString].
Proof. repeat split; reflexivity. Qed.

Example getitem_examples :
  Py.getitem ["a"; "b"; "c"] 0 = Some "a" ∧
  Py.getitem ["a"; "b"; "c"] (-1) = Some "c" ∧
  Py.getitem ["a"; "b"; "c"] 3 = None ∧
  Py.getitem ["a"; "b"; "c"] (-4) = None.
Proof. repeat split; reflexivity. Qed.

Example scenario_A_loaded :
  read_machine init scenario_A_lines = (true, scenario_A).
Proof. vm_compute. reflexivity. Qed.

Example scenario_B_loaded :
  read_machine init scenario_B_lines = (true, scenario_B).
Proof. vm_compute. reflexivity. Qed.

Example scenario_A_first_step :
  loop_body scenario_A
  = Stepped {| head := 1; state := 0; halt_state := 1;
               tape_contents := ["0"; "0"; "1"];
               action_table := action_table scenario_A |}.
Proof. vm_compute. reflexivity. Qed.

(** ** The table is only read *)

Lemma set_action_table_id tm : set_action_table (action_table tm) tm = tm.
Proof. by destruct tm. Qed.

Lemma defaultdict_getitem_present `{Countable K} {V} (dflt v : V)
    (d : gmap K V) k :
  d !! k = Some v → Py.defaultdict_getitem dflt d k = (v, d).
Proof. intros Hk. unfold Py.defaultdict_getitem. by rewrite Hk. Qed.

Lemma table_getitem_present tm k acts :
  action_table tm !! k = Some acts → table_getitem tm k = (acts, tm).
Proof.
  intros Hk. unfold table_getitem.
  rewrite (defaultdict_getitem_present _ acts) by done.
  by rewrite set_action_table_id.
Qed.

Lemma select_read_present c tm acts :
  action_table tm !! state tm = Some acts →
  select_read c tm
  = (if decide (is_Some (acts !! c)) then Some c
     else if decide (is_Some (acts !! "*")) then Some "*" else None, tm).
Proof.
  intros Hs. unfold select_read.
  rewrite (table_getitem_present _ _ _ Hs).
  destruct (decide (is_Some (acts !! c))); [done|].
  rewrite (table_getitem_present _ _ _ Hs).
  by destruct (decide (is_Some (acts !! "*"))).
Qed.

(** [dispatch] as a lookup: exact entry, else wildcard entry, else nothing. *)
Lemma dispatch_absent tm :
  action_table tm !! state tm = None → dispatch tm = NoAction tm.
Proof.
  intros Hs. unfold dispatch.
  destruct (decide (state tm ∉ dom (action_table tm))) as [|Hin]; [done|].
  exfalso. apply Hin. by apply not_elem_of_dom.
Qed.

Lemma dispatch_present tm acts :
  action_table tm !! state tm = Some acts →
  dispatch tm
  = match Py.getitem (tape_contents tm) (head tm) with
    | None => Fault IndexError tm
    | Some c =>
        match acts !! c with
        | Some a => Dispatch a tm
        | None =>
            match acts !! "*" with
            | Some a => Dispatch a tm
            | None => NoAction tm
            end
        end
    end.
Proof.
  intros Hs. unfold dispatch.
  destruct (decide (state tm ∉ dom (action_table tm))) as [Hin|_].
  { exfalso. apply Hin. apply elem_of_dom. eauto. }
  destruct (Py.getitem (tape_contents tm) (head tm)) as [c|]; [|done].
  rewrite (select_read_present _ _ _ Hs).
  destruct (acts !! c) as [a|] eqn:Hc.
  - rewrite decide_True by eauto.
    rewrite (table_getitem_present _ _ _ Hs). by rewrite Hc.
  - rewrite decide_False by (intros [? ?]; done).
    destruct (acts !! "*") as [a|] eqn:Hw.
    + rewrite decide_True by eauto.
      rewrite (table_getitem_present _ _ _ Hs). by rewrite Hw.
    + by rewrite decide_False by (intros [? ?]; done).
Qed.

(** Whatever [dispatch] answers, it hands back the machine it was given. *)
Lemma dispatch_machine tm :
  match dispatch tm with
  | NoAction tm' | Fault _ tm' | Dispatch _ tm' => tm' = tm
  end.
Proof.
  destruct (action_table tm !! state tm) as [acts|] eqn:Hs.
  - rewrite (dispatch_present _ _ Hs).
    destruct (Py.getitem _ _); [|done].
    destruct (acts !! _); [done|]. by destruct (acts !! "*").
  - by rewrite dispatch_absent.
Qed.

Lemma dispatch_Dispatch tm a tm1 :
  dispatch tm = Dispatch a tm1 →
  tm1 = tm ∧
  ∃ acts c, action_table tm !! state tm = Some acts ∧
            Py.getitem (tape_contents tm) (head tm) = Some c ∧
            (acts !! c = Some a ∨ acts !! c = None ∧ acts !! "*" = Some a).
Proof.
  intros Hd. pose proof (dispatch_machine tm) as Hm. rewrite Hd in Hm.
  split; [done|].
  destruct (action_table tm !! state tm) as [acts|] eqn:Hs.
  - rewrite (dispatch_present _ _ Hs) in Hd.
    exists acts.
    destruct (Py.getitem _ _) as [c|]; [|done].
    exists c. split; [done|]. split; [done|].
    destruct (acts !! c) as [a'|]; [left; congruence|].
    right. destruct (acts !! "*"); [|done]. split; congruence.
  - by rewrite dispatch_absent in Hd.
Qed.

Lemma dispatch_no_transition tm :
  no_transition tm → dispatch tm = NoAction tm.
Proof.
  unfold no_transition. intros Hn.
  destruct (action_table tm !! state tm) as [acts|] eqn:Hs.
  - destruct Hn as (c & Hc & He & Hw).
    rewrite (dispatch_present _ _ Hs), Hc, He, Hw. done.
  - by apply dispatch_absent.
Qed.

Lemma loop_body_no_transition tm :
  no_transition tm → loop_body tm = ReturnNone tm.
Proof.
  intros Hn. unfold loop_body. by rewrite dispatch_no_transition.
Qed.

(** ** The loop and its fuel *)

Lemma while_loop_more fuel k tm all r :
  while_loop fuel tm all = Some r → while_loop (fuel + k) tm all = Some r.
Proof.
  revert tm all. induction fuel as [|fuel IH]; intros tm all; simpl; [done|].
  destruct (decide (state tm ≠ halt_state tm)); [|done].
  destruct (loop_body tm); auto.
Qed.

Lemma while_loop_det fuel1 fuel2 tm all r1 r2 :
  while_loop fuel1 tm all = Some r1 →
  while_loop fuel2 tm all = Some r2 →
  r1 = r2.
Proof.
  intros H1 H2.
  apply (while_loop_more _ fuel2) in H1.
  apply (while_loop_more _ fuel1) in H2.
  rewrite (Nat.add_comm fuel2 fuel1) in H2. congruence.
Qed.

(** [execute] is a function of the machine: at most one answer. *)
Lemma execute_returns_det tm r1 tm1 r2 tm2 :
  execute_returns tm r1 tm1 → execute_returns tm r2 tm2 →
  r1 = r2 ∧ tm1 = tm2.
Proof.
  intros [f1 H1] [f2 H2].
  pose proof (while_loop_det _ _ _ _ _ _ H1 H2) as Heq. by simplify_eq.
Qed.

(** A reached configuration is where the loop stands after some passes. *)
Lemma while_loop_reaches tm tm' :
  reaches tm tm' →
  ∀ all, ∃ n all', ∀ fuel,
    while_loop (n + fuel) tm all = while_loop fuel tm' all'.
Proof.
  induction 1 as [tm|tm tm1 tm2 Hne Hb _ IH]; intros all.
  - by exists 0%nat, all.
  - destruct (IH (all ++ [Py.join (tape_contents tm1)])) as (n & all' & Hn).
    exists (S n), all'. intros fuel. simpl.
    rewrite decide_True by done. rewrite Hb. apply Hn.
Qed.

Lemma reaches_trans tm1 tm2 tm3 :
  reaches tm1 tm2 → reaches tm2 tm3 → reaches tm1 tm3.
Proof.
  induction 1; [done|]. intros. eapply reaches_step; eauto.
Qed.

(** ** [take_action] *)

Lemma index_in_range len i :
  0 <= i < Z.of_nat len → Py.index len i = Some (Z.to_nat i).
Proof. intros Hi. unfold Py.index. by rewrite decide_True. Qed.

Lemma index_lt len i n : Py.index len i = Some n → (n < len)%nat.
Proof.
  unfold Py.index. intros Hi.
  destruct (decide (0 <= i < Z.of_nat len)); simplify_eq; [lia|].
  destruct (decide (- Z.of_nat len <= i < 0)); simplify_eq. lia.
Qed.

Lemma setitem_length {A} (l l' : list A) i x :
  Py.setitem l i x = Some l' → length l' = length l.
Proof.
  unfold Py.setitem. destruct (Py.index _ _); intros; simplify_eq/=.
  apply length_insert.
Qed.

Lemma getitem_setitem {A} (l : list A) i x c :
  Py.getitem l i = Some c → is_Some (Py.setitem l i x).
Proof.
  unfold Py.getitem, Py.setitem. destruct (Py.index _ _); [eauto|done].
Qed.

Lemma take_action_unfold a tm tape1 :
  written a tm = Some tape1 →
  take_action a tm
  = Some {| head := if decide (head tm + direction a < 0) then 0
                    else head tm + direction a;
            state := new_state a;
            halt_state := halt_state tm;
            tape_contents :=
              if decide (head tm + direction a < 0) then "-" :: tape1
              else if decide (Z.of_nat (length tape1)
                              <= head tm + direction a)
                   then tape1 ++ ["-"] else tape1;
            action_table := action_table tm |}.
Proof.
  unfold written, take_action. intros ->. simpl.
  destruct (decide (head tm + direction a < 0)); [done|].
  by destruct (decide (_ <= _)).
Qed.

Lemma take_action_fails a tm :
  written a tm = None → take_action a tm = None.
Proof. unfold written, take_action. by intros ->. Qed.

Lemma written_length a tm tape1 :
  written a tm = Some tape1 → length tape1 = length (tape_contents tm).
Proof.
  unfold written. destruct (decide _); [apply setitem_length|].
  by intros [= <-].
Qed.

Lemma written_readable a tm c :
  Py.getitem (tape_contents tm) (head tm) = Some c → is_Some (written a tm).
Proof.
  intros Hc. unfold written. destruct (decide _); [|eauto].
  by eapply getitem_setitem.
Qed.

(** A step that runs to its end is a dispatched action that was applied. *)
Lemma loop_body_Stepped tm tm' :
  loop_body tm = Stepped tm' →
  ∃ a, dispatch tm = Dispatch a tm ∧ take_action a tm = Some tm'.
Proof.
  unfold loop_body. intros Hb.
  destruct (dispatch tm) as [| |a tm1] eqn:Hd; [done..|].
  destruct (dispatch_Dispatch _ _ _ Hd) as [-> _].
  exists a. split; [done|]. by destruct (take_action a tm); simplify_eq.
Qed.

(** Once the symbol under the head has been read, the action goes through. *)
Lemma loop_body_Dispatch tm a tm1 :
  dispatch tm = Dispatch a tm1 →
  ∃ tm', take_action a tm = Some tm' ∧ loop_body tm = Stepped tm'.
Proof.
  intros Hd. destruct (dispatch_Dispatch _ _ _ Hd) as (-> & acts & c & _ & Hc & _).
  destruct (written_readable a _ _ Hc) as [tape1 Hw].
  eexists. split; [by apply take_action_unfold|].
  unfold loop_body. rewrite Hd. by rewrite (take_action_unfold _ _ _ Hw).
Qed.

Lemma take_action_frame a tm tm' :
  take_action a tm = Some tm' →
  action_table tm' = action_table tm ∧ halt_state tm' = halt_state tm ∧
  state tm' = new_state a.
Proof.
  intros Ht. destruct (written a tm) as [tape1|] eqn:Hw.
  - rewrite (take_action_unfold _ _ _ Hw) in Ht. by simplify_eq.
  - by rewrite take_action_fails in Ht.
Qed.

Lemma take_action_grows a tm tm' :
  take_action a tm = Some tm' →
  (length (tape_contents tm) <= length (tape_contents tm'))%nat.
Proof.
  intros Ht. destruct (written a tm) as [tape1|] eqn:Hw.
  - rewrite (take_action_unfold _ _ _ Hw) in Ht. simplify_eq/=.
    apply written_length in Hw.
    repeat case_decide; rewrite ?length_app; simpl; lia.
  - by rewrite take_action_fails in Ht.
Qed.

Lemma take_action_in_bounds a tm tm' :
  in_bounds tm → -1 <= direction a <= 1 →
  take_action a tm = Some tm' → in_bounds tm'.
Proof.
  unfold in_bounds. intros Hb Hd Ht.
  destruct (written a tm) as [tape1|] eqn:Hw.
  - rewrite (take_action_unfold _ _ _ Hw) in Ht. simplify_eq/=.
    apply written_length in Hw.
    repeat case_decide; rewrite ?length_app; simpl; lia.
  - by rewrite take_action_fails in Ht.
Qed.

Lemma moves_ok_lookup tbl s acts c a :
  moves_ok tbl → tbl !! s = Some acts → acts !! c = Some a →
  -1 <= direction a <= 1.
Proof.
  intros Hm Hs Hc.
  exact (map_Forall_lookup_1 _ _ _ _ (map_Forall_lookup_1 _ _ _ _ Hm Hs) Hc).
Qed.

Lemma dispatch_moves_ok tm a tm1 :
  moves_ok (action_table tm) → dispatch tm = Dispatch a tm1 →
  -1 <= direction a <= 1.
Proof.
  intros Hm Hd.
  destruct (dispatch_Dispatch _ _ _ Hd) as (_ & acts & c & Hs & _ & [Hc|[_ Hc]]);
    eapply moves_ok_lookup; eauto.
Qed.

(** ** Scenario A *)

Lemma scenario_A_run :
  execute 3 scenario_A
  = Some (Trace ["101"; "001"; "001"], scenario_A_final).
Proof. vm_compute. reflexivity. Qed.

(** C1 (as the code behaves): on the machine of scenario A, [execute()]
    halts and returns the trace ["101", "001", "001"]. The second step moves
    the head to cell 2 of a three-cell tape, which is inside the tape, so no
    blank is appended. *)
Theorem scenario_A_trace :
  execute_returns scenario_A (Trace ["101"; "001"; "001"]) scenario_A_final ∧
  head scenario_A_final = 2 ∧
  length (tape_contents scenario_A_final) = 3%nat.
Proof. split; [|done]. exists 3%nat. apply scenario_A_run. Qed.

(** C1 as stated fails: [execute()] does not return the trace
    ["101", "001", "001-"] on the machine of scenario A. *)
Lemma scenario_A_no_trailing_blank :
  ¬ ∃ tm', execute_returns scenario_A (Trace ["101"; "001"; "001-"]) tm'.
Proof.
  intros [tm' Hr].
  assert (execute_returns scenario_A (Trace ["101"; "001"; "001"])
            scenario_A_final) as Hok
    by (exists 3%nat; apply scenario_A_run).
  destruct (execute_returns_det _ _ _ _ _ Hr Hok) as [Heq _]. discriminate.
Qed.

(** ** Lookup precedence *)

(** C3: when the state has both an exact entry for the symbol under the head
    and a wildcard entry, the step dispatches the exact entry's action and
    applies it; the wildcard entry plays no part. *)
Theorem exact_entry_precedence tm acts c exact wildcard :
  action_table tm !! state tm = Some acts →
  Py.getitem (tape_contents tm) (head tm) = Some c →
  acts !! c = Some exact →
  acts !! "*" = Some wildcard →
  dispatch tm = Dispatch exact tm ∧
  ∃ tm', take_action exact tm = Some tm' ∧ loop_body tm = Stepped tm'.
Proof.
  intros Hs Hc He _.
  assert (dispatch tm = Dispatch exact tm) as Hd
    by (by rewrite (dispatch_present _ _ Hs), Hc, He).
  split; [done|]. by eapply loop_body_Dispatch.
Qed.

Lemma exact_entry_precedence_witness :
  dispatch precedence_machine = Dispatch (mk_action "e" 1 1) precedence_machine ∧
  ∃ tm', take_action (mk_action "e" 1 1) precedence_machine = Some tm' ∧
         loop_body precedence_machine = Stepped tm'.
Proof.
  apply (exact_entry_precedence precedence_machine
           (<["*" := mk_action "w" 0 1]> (<["a" := mk_action "e" 1 1]> ∅))
           "a" (mk_action "e" 1 1) (mk_action "w" 0 1));
    vm_compute; reflexivity.
Defined.

(** ** No applicable transition *)

Lemma no_transition_execute tm tm' :
  reaches tm tm' → state tm' ≠ halt_state tm' → no_transition tm' →
  execute_returns tm PyNone tm'.
Proof.
  intros Hr Hne Hn.
  destruct (while_loop_reaches _ _ Hr [Py.join (tape_contents tm)])
    as (n & all' & Hfuel).
  exists (n + 1)%nat. unfold execute. rewrite Hfuel. simpl.
  rewrite decide_True by done. by rewrite loop_body_no_transition.
Qed.

Lemma scenario_B_no_transition : no_transition scenario_B.
Proof. vm_compute. exists "0". by vm_compute. Qed.

(** C4: when the run has reached a configuration, not the halt state, whose
    state and symbol under the head match neither an exact nor a wildcard
    entry (a state without entries included), [execute()] returns [None] and
    no trace at all. In scenario B it returns [None]. *)
Theorem no_transition_returns_None :
  (∀ tm tm',
     reaches tm tm' → state tm' ≠ halt_state tm' → no_transition tm' →
     (∃ tm'', execute_returns tm PyNone tm'') ∧
     ∀ t tm'', ¬ execute_returns tm (Trace t) tm'') ∧
  (∃ tm'', execute_returns scenario_B PyNone tm'') ∧
  (∀ t tm'', ¬ execute_returns scenario_B (Trace t) tm'').
Proof.
  assert (∀ tm tm',
     reaches tm tm' → state tm' ≠ halt_state tm' → no_transition tm' →
     (∃ tm'', execute_returns tm PyNone tm'') ∧
     ∀ t tm'', ¬ execute_returns tm (Trace t) tm'') as Hgen.
  { intros tm tm' Hr Hne Hn.
    pose proof (no_transition_execute _ _ Hr Hne Hn) as Hex.
    split; [by exists tm'|].
    intros t tm'' Ht.
    by destruct (execute_returns_det _ _ _ _ _ Hex Ht). }
  split; [exact Hgen|].
  apply (Hgen scenario_B scenario_B);
    [apply reaches_here | by vm_compute | apply scenario_B_no_transition].
Qed.

Lemma no_transition_returns_None_witness :
  (∃ tm'', execute_returns scenario_B PyNone tm'') ∧
  ∀ t tm'', ¬ execute_returns scenario_B (Trace t) tm''.
Proof.
  apply (proj1 no_transition_returns_None scenario_B scenario_B).
  - apply reaches_here.
  - vm_compute. discriminate.
  - vm_compute. exists "0". vm_compute. auto.
Defined.

(** C6: the failing step changes nothing. When the run has reached a
    configuration with no applicable entry, the loop body returns with the
    machine as it found it, and [execute()] returns [None] leaving the tape,
    the head, the state (and the table) as they were before that step. *)
Theorem failing_step_atomic tm tm' :
  reaches tm tm' → state tm' ≠ halt_state tm' → no_transition tm' →
  loop_body tm' = ReturnNone tm' ∧
  ∃ tm'', execute_returns tm PyNone tm'' ∧
          tape_contents tm'' = tape_contents tm' ∧
          head tm'' = head tm' ∧
          state tm'' = state tm' ∧
          action_table tm'' = action_table tm'.
Proof.
  intros Hr Hne Hn. split; [by apply loop_body_no_transition|].
  exists tm'. split; [by apply no_transition_execute|done].
Qed.

Lemma failing_step_atomic_witness :
  loop_body scenario_B = ReturnNone scenario_B ∧
  ∃ tm'', execute_returns scenario_B PyNone tm'' ∧
          tape_contents tm'' = tape_contents scenario_B ∧
          head tm'' = head scenario_B ∧
          state tm'' = state scenario_B ∧
          action_table tm'' = action_table scenario_B.
Proof.
  apply (failing_step_atomic scenario_B scenario_B).
  - apply reaches_here.
  - vm_compute. discriminate.
  - vm_compute. exists "0". vm_compute. auto.
Defined.

(** ** Immediate halt *)

(** C7: when the start state is the halt state, [execute()] does not enter
    the loop and returns the one-element trace made of the initial tape,
    leaving the machine untouched. *)
Theorem immediate_halt tm :
  state tm = halt_state tm →
  (∀ fuel, execute (S fuel) tm
           = Some (Trace [Py.join (tape_contents tm)], tm)) ∧
  execute_returns tm (Trace [Py.join (tape_contents tm)]) tm ∧
  length [Py.join (tape_contents tm)] = 1%nat.
Proof.
  intros Heq.
  assert (∀ fuel, execute (S fuel) tm
                  = Some (Trace [Py.join (tape_contents tm)], tm)) as Hf.
  { intros fuel. unfold execute. simpl. by rewrite decide_False by auto. }
  split; [done|]. split; [|done]. exists 1%nat. apply Hf.
Qed.

Lemma immediate_halt_witness :
  (∀ fuel, execute (S fuel) (set_state 1 scenario_A)
           = Some (Trace ["101"], set_state 1 scenario_A)) ∧
  execute_returns (set_state 1 scenario_A) (Trace ["101"])
    (set_state 1 scenario_A) ∧
  length [Py.join (tape_contents (set_state 1 scenario_A))] = 1%nat.
Proof. apply (immediate_halt (set_state 1 scenario_A)). reflexivity. Defined.

(** ** The bounds invariant *)

Lemma loop_body_in_bounds tm tm' :
  moves_ok (action_table tm) → in_bounds tm → loop_body tm = Stepped tm' →
  moves_ok (action_table tm') ∧ in_bounds tm' ∧
  (length (tape_contents tm) <= length (tape_contents tm'))%nat.
Proof.
  intros Hm Hb Hs.
  destruct (loop_body_Stepped _ _ Hs) as (a & Hd & Ht).
  destruct (take_action_frame _ _ _ Ht) as (-> & _ & _).
  split; [done|]. split.
  - eapply take_action_in_bounds; eauto using dispatch_moves_ok.
  - by eapply take_action_grows.
Qed.

(** With the head inside the tape, a pass through the loop raises nothing:
    it ends the run with [None] or it completes the step. *)
Lemma in_bounds_no_exception tm e tm' :
  in_bounds tm → loop_body tm ≠ Raised e tm'.
Proof.
  unfold in_bounds. intros Hb Hr.
  assert (is_Some (Py.getitem (tape_contents tm) (head tm))) as [c Hc].
  { unfold Py.getitem. rewrite index_in_range by done. simpl.
    apply lookup_lt_is_Some. lia. }
  unfold loop_body in Hr.
  destruct (dispatch tm) as [| |a tm1] eqn:Hd.
  - done.
  - destruct (action_table tm !! state tm) as [acts|] eqn:Hs.
    + rewrite (dispatch_present _ _ Hs), Hc in Hd.
      destruct (acts !! c); [done|]. by destruct (acts !! "*").
    + by rewrite dispatch_absent in Hd.
  - destruct (loop_body_Dispatch _ _ _ Hd) as (tm2 & Ht & _).
    destruct (dispatch_Dispatch _ _ _ Hd) as [-> _].
    by rewrite Ht in Hr.
Qed.

Lemma reaches_in_bounds tm tm' :
  moves_ok (action_table tm) → in_bounds tm → reaches tm tm' →
  moves_ok (action_table tm') ∧ in_bounds tm' ∧
  (length (tape_contents tm) <= length (tape_contents tm'))%nat.
Proof.
  intros Hm Hb Hr. induction Hr as [tm|tm tm1 tm2 _ Hs _ IH]; [done|].
  destruct (loop_body_in_bounds _ _ Hm Hb Hs) as (Hm1 & Hb1 & Hl1).
  destruct (IH Hm1 Hb1) as (Hm2 & Hb2 & Hl2).
  split; [done|]. split; [done|lia].
Qed.

(** C5: started with the head inside the tape, on a table whose actions
    move by -1, 0 or 1, every configuration the run reaches has the head
    inside the tape, and the tape is at least as long as it was. *)
Theorem bounds_invariant tm tm' :
  moves_ok (action_table tm) →
  in_bounds tm →
  reaches tm tm' →
  in_bounds tm' ∧
  (length (tape_contents tm) <= length (tape_contents tm'))%nat.
Proof.
  intros Hm Hb Hr. by destruct (reaches_in_bounds _ _ Hm Hb Hr) as (_ & ? & ?).
Qed.

Lemma bounds_invariant_witness :
  in_bounds scenario_A_final ∧
  (length (tape_contents scenario_A)
   <= length (tape_contents scenario_A_final))%nat.
Proof.
  apply (bounds_invariant scenario_A scenario_A_final).
  - unfold moves_ok. apply (bool_decide_unpack _). vm_compute. exact I.
  - vm_compute. split; [discriminate|reflexivity].
  - eapply reaches_step; [vm_compute; discriminate|vm_compute; reflexivity|].
    eapply reaches_step; [vm_compute; discriminate|vm_compute; reflexivity|].
    apply reaches_here.
Defined.

(** ** Actions that do not write *)

(** C8: a step whose dispatched action has write field "*" completes; the
    cell the head designated before the move still holds its symbol (it sits
    one place further when a blank was put in front), in fact every cell
    does; the head has moved by the action's direction (back to 0 when it
    fell off the left end) and the state is the action's new state. *)
Theorem no_write_semantics tm a tm1 :
  dispatch tm = Dispatch a tm1 →
  write a = "*" →
  ∃ tm', loop_body tm = Stepped tm' ∧
         state tm' = new_state a ∧
         head tm' = Z.max 0 (head tm + direction a) ∧
         (∀ n, Py.index (length (tape_contents tm)) (head tm) = Some n →
               tape_contents tm' !! (prepended a tm + n)%nat
               = tape_contents tm !! n) ∧
         (∀ i x, tape_contents tm !! i = Some x →
                 tape_contents tm' !! (prepended a tm + i)%nat = Some x).
Proof.
  intros Hd Hw.
  destruct (loop_body_Dispatch _ _ _ Hd) as (tm' & Ht & Hb).
  exists tm'. split; [done|].
  assert (written a tm = Some (tape_contents tm)) as Hwr.
  { unfold written. by rewrite decide_False by (by rewrite Hw; intros []). }
  rewrite (take_action_unfold _ _ _ Hwr) in Ht. simplify_eq/=.
  split; [done|]. split; [case_decide; lia|].
  assert (∀ i x, tape_contents tm !! i = Some x →
     (if decide (head tm + direction a < 0) then "-" :: tape_contents tm
      else if decide (Z.of_nat (length (tape_contents tm))
                      <= head tm + direction a)
           then tape_contents tm ++ ["-"] else tape_contents tm)
     !! (prepended a tm + i)%nat = Some x) as Hall.
  { intros i x Hi. unfold prepended.
    destruct (decide (head tm + direction a < 0)); [done|]. simpl.
    case_decide; [|done]. by apply lookup_app_l_Some. }
  split; [|done].
  intros n Hn. apply index_lt in Hn.
  destruct (lookup_lt_is_Some_2 _ _ Hn) as [x Hx].
  rewrite Hx. by apply Hall.
Qed.

Lemma no_write_semantics_witness :
  ∃ tm', loop_body (set_head 1 scenario_A) = Stepped tm' ∧
         state tm' = 1 ∧
         head tm' = Z.max 0 (1 + 1) ∧
         (∀ n, Py.index 3 1 = Some n →
               tape_contents tm' !! (0 + n)%nat
               = tape_contents scenario_A !! n) ∧
         (∀ i x, tape_contents scenario_A !! i = Some x →
                 tape_contents tm' !! (0 + i)%nat = Some x).
Proof.
  apply (no_write_semantics (set_head 1 scenario_A) (mk_action "*" 1 1)
           (set_head 1 scenario_A)).
  - vm_compute. reflexivity.
  - reflexivity.
Defined.

(** ** Moving left from the first cell *)

(** C9 (as the code behaves): a step whose dispatched action moves by -1
    while the head is 0 completes with a blank put in front of the tape and
    the head at 0 again. Behind the blank comes the tape as the action's
    write left it: cell 1 holds the written symbol, or the symbol cell 0
    held when the write field is "*", and every other symbol has moved one
    place to the right. *)
Theorem underflow_growth tm a tm1 :
  dispatch tm = Dispatch a tm1 →
  head tm = 0 →
  direction a = -1 →
  ∃ tm', loop_body tm = Stepped tm' ∧
         head tm' = 0 ∧
         state tm' = new_state a ∧
         tape_contents tm'
         = "-" :: (if decide (write a ≠ "*")
                   then <[0%nat := write a]> (tape_contents tm)
                   else tape_contents tm) ∧
         (write a = "*" →
          tape_contents tm' !! 1%nat = tape_contents tm !! 0%nat) ∧
         (write a ≠ "*" → tape_contents tm' !! 1%nat = Some (write a)) ∧
         (∀ i, (1 <= i)%nat →
               tape_contents tm' !! S i = tape_contents tm !! i).
Proof.
  intros Hd Hh Hdir.
  destruct (loop_body_Dispatch _ _ _ Hd) as (tm' & Ht & Hb).
  exists tm'. split; [done|].
  destruct (dispatch_Dispatch _ _ _ Hd) as (_ & acts & c & _ & Hc & _).
  assert (0 < Z.of_nat (length (tape_contents tm))) as Hlen.
  { unfold Py.getitem in Hc. rewrite Hh in Hc.
    destruct (Py.index _ 0) as [n|] eqn:Hn; [|done].
    apply index_lt in Hn. lia. }
  assert (written a tm
          = Some (if decide (write a ≠ "*")
                  then <[0%nat := write a]> (tape_contents tm)
                  else tape_contents tm)) as Hwr.
  { unfold written. destruct (decide (write a ≠ "*")); [|done].
    unfold Py.setitem. rewrite Hh, index_in_range by lia. done. }
  rewrite (take_action_unfold _ _ _ Hwr) in Ht. simplify_eq/=.
  rewrite Hh, Hdir. simpl.
  split; [done|]. split; [done|]. split; [done|]. split; [|split].
  - intros Hw. by rewrite decide_False by (by rewrite Hw; intros []).
  - intros Hw. rewrite decide_True by done.
    apply list_lookup_insert_eq. lia.
  - intros i Hi. destruct (decide (write a ≠ "*")); [|done].
    apply list_lookup_insert_ne. lia.
Qed.

Lemma underflow_growth_witness :
  ∃ tm', loop_body underflow_machine = Stepped tm' ∧
         head tm' = 0 ∧
         state tm' = 1 ∧
         tape_contents tm' = ["-"; "0"] ∧
         (("0" : string) = "*" →
          tape_contents tm' !! 1%nat = Some "1") ∧
         (("0" : string) ≠ "*" → tape_contents tm' !! 1%nat = Some "0") ∧
         (∀ i, (1 <= i)%nat →
               tape_contents tm' !! S i = tape_contents underflow_machine !! i).
Proof.
  apply (underflow_growth underflow_machine (mk_action "0" (-1) 1)
           underflow_machine).
  - vm_compute. reflexivity.
  - reflexivity.
  - reflexivity.
Defined.

(** C9 as stated fails for an action that writes: on the tape "1" with the
    head at 0, the action (write '0', move -1) leaves "-0"; cell 1 holds
    the written '0', not the '1' that was in cell 0 before the step. *)
Lemma underflow_overwrites_first :
  dispatch underflow_machine
  = Dispatch (mk_action "0" (-1) 1) underflow_machine ∧
  head underflow_machine = 0 ∧
  direction (mk_action "0" (-1) 1) = -1 ∧
  ∃ tm', loop_body underflow_machine = Stepped tm' ∧
         tape_contents tm' = ["-"; "0"] ∧
         tape_contents underflow_machine !! 0%nat = Some "1" ∧
         tape_contents tm' !! 1%nat ≠ tape_contents underflow_machine !! 0%nat.
Proof.
  split; [vm_compute; reflexivity|]. split; [reflexivity|].
  split; [reflexivity|].
  eexists. split; [vm_compute; reflexivity|].
  split; [reflexivity|]. split; [reflexivity|]. discriminate.
Qed.

(** ** The head offset is not validated *)

(** C10: [read_machine] accepts descriptions whose head offset lies outside
    the tape. With offset 5 on the tape "101" the bounds invariant fails
    before the first step and the first tape read of [execute()] raises
    [IndexError]. With offset -1 the invariant fails as well, but the read
    silently yields the last symbol of the tape and the step goes on. *)
Theorem head_offset_not_validated :
  (read_machine init oversized_head_lines = (true, oversized_head_machine) ∧
   ¬ in_bounds oversized_head_machine ∧
   Z.of_nat (length (tape_contents oversized_head_machine))
   <= head oversized_head_machine ∧
   Py.getitem (tape_contents oversized_head_machine)
     (head oversized_head_machine) = None ∧
   execute_returns oversized_head_machine (Uncaught IndexError)
     oversized_head_machine) ∧
  (read_machine init negative_head_lines = (true, negative_head_machine) ∧
   ¬ in_bounds negative_head_machine ∧
   head negative_head_machine < 0 ∧
   Py.getitem (tape_contents negative_head_machine)
     (head negative_head_machine)
   = last (tape_contents negative_head_machine) ∧
   ∃ tm', loop_body negative_head_machine = Stepped tm').
Proof.
  split.
  - split; [vm_compute; reflexivity|].
    split; [unfold in_bounds; simpl; lia|].
    split; [simpl; lia|]. split; [reflexivity|].
    exists 1%nat. vm_compute. reflexivity.
  - split; [vm_compute; reflexivity|].
    split; [unfold in_bounds; simpl; lia|].
    split; [simpl; lia|]. split; [reflexivity|].
    eexists. vm_compute. reflexivity.
Qed.

(** ** Validation of the description *)

Lemma read_action_line_rejected tm l tm' :
  line_rejected l → read_action_line tm l ≠ Parsed tm'.
Proof.
  unfold line_rejected, read_action_line.
  destruct (Py.split " " l) as [|f0 [|f1 [|f2 [|f3 [|f4 more]]]]];
    try done.
  simpl. intros Hrej.
  destruct (decide (1 < String.length f1)%nat); [done|].
  destruct (decide (1 < String.length f2)%nat); [done|].
  destruct (Py.int f3) as [d|]; [|done].
  destruct (decide (1 < Z.abs d)); [done|].
  destruct (Py.int f4) as [ns|]; [|done].
  destruct (Py.int f0) as [st|]; [|done].
  exfalso. destruct Hrej as [?|[?|[?|[?|[(d' & ? & ?)|[?|?]]]]]];
    simplify_eq; lia.
Qed.

Lemma read_action_line_total tm l :
  line_rejected l ∨ ∃ tm', read_action_line tm l = Parsed tm'.
Proof.
  unfold line_rejected, read_action_line.
  destruct (Py.split " " l) as [|f0 [|f1 [|f2 [|f3 [|f4 more]]]]];
    try (left; left; simpl; lia).
  simpl.
  destruct (decide (1 < String.length f1)%nat); [auto|].
  destruct (decide (1 < String.length f2)%nat); [auto|].
  destruct (Py.int f3) as [d|]; [|auto 6].
  destruct (decide (1 < Z.abs d)); [left; eauto 8|].
  destruct (Py.int f4) as [ns|]; [|auto 10].
  destruct (Py.int f0) as [st|]; [|auto 10].
  right. destruct (table_getitem tm st). eauto.
Qed.

Lemma line_well_formed_not_rejected l :
  line_well_formed l → ¬ line_rejected l.
Proof.
  unfold line_well_formed, line_rejected.
  intros (f0 & f1 & f2 & f3 & f4 & more & st & d & ns
          & -> & Hl1 & Hl2 & Hst & Hd & Habs & Hns). simpl.
  intros [?|[?|[?|[?|[(d' & ? & ?)|[?|?]]]]]]; simplify_eq; lia.
Qed.

Lemma read_action_lines_rejected ls : ∀ tm tm',
  Exists line_rejected ls → read_action_lines tm ls ≠ Parsed tm'.
Proof.
  induction ls as [|l ls IH]; intros tm tm' Hex.
  - by apply Exists_nil in Hex.
  - simpl. apply Exists_cons in Hex.
    destruct (read_action_line tm l) as [| |tm1] eqn:Hl; [done..|].
    destruct Hex as [Hrej|Hex]; [|by apply IH].
    by apply (read_action_line_rejected tm l tm1) in Hrej.
Qed.

Lemma read_action_lines_total ls : ∀ tm,
  Exists line_rejected ls ∨ ∃ tm', read_action_lines tm ls = Parsed tm'.
Proof.
  induction ls as [|l ls IH]; intros tm; simpl; [eauto|].
  destruct (read_action_line_total tm l) as [Hrej|[tm1 ->]].
  - left. by apply Exists_cons_hd.
  - destruct (IH tm1) as [Hex|Hok]; [|by right].
    left. by apply Exists_cons_tl.
Qed.

(** The reader answers [True] exactly on the descriptions it has no
    ground to refuse. *)
Lemma read_machine_accepts_iff tm lines :
  (read_machine tm lines).1 = true ↔ ¬ description_rejected lines.
Proof.
  unfold description_rejected, read_machine.
  destruct lines as [|l0 [|l1 [|l2 [|l3 rest]]]];
    try (simpl; split; [done|intros H; exfalso; apply H; left; lia]).
  simpl.
  destruct (Py.int l1) as [h|];
    [|simpl; split; [done|intros H; exfalso; apply H; auto]].
  destruct (Py.int l2) as [s|];
    [|simpl; split; [done|intros H; exfalso; apply H; auto]].
  destruct (Py.int l3) as [hs|];
    [|simpl; split; [done|intros H; exfalso; apply H; auto 6]].
  set (tm0 := set_halt_state _ _).
  destruct (read_action_lines_total rest tm0) as [Hex|[tm' Hok]].
  - split; [|intros H; exfalso; apply H; auto 6].
    destruct (read_action_lines tm0 rest) as [| |tm'] eqn:Hr; [done..|].
    by apply (read_action_lines_rejected rest tm0 tm') in Hex.
  - rewrite Hok. simpl. split; [|done]. intros _.
    intros [?|[?|[?|[?|Hex]]]]; try done; [lia|].
    by apply (read_action_lines_rejected rest tm0 tm') in Hex.
Qed.

Lemma well_formed_not_rejected lines :
  description_well_formed lines → ¬ description_rejected lines.
Proof.
  unfold description_well_formed, description_rejected.
  intros (Hlen & [h Hh] & [s Hs] & [hs Hhs] & Hall).
  intros [?|[?|[?|[?|Hex]]]]; try congruence; [lia|].
  apply Exists_exists in Hex as (l & Hin & Hrej).
  rewrite Forall_forall in Hall.
  by apply (line_well_formed_not_rejected l (Hall l Hin)).
Qed.

(** C2 (as the code behaves): [read_machine] returns [False] on every
    description with fewer than four lines, with a head, start or halt line
    that is no integer, or with a transition line that, split on single
    spaces, has fewer than five fields, a read or write field longer than
    one character, a direction that is no integer or exceeds 1 in absolute
    value, or a state or new-state field that is no integer; it returns
    [True] only when none of these holds; and it does return [True] on every
    description of at least four lines with integer head, start and halt
    lines whose transition lines have at least five fields, the first five
    being an integer, two one-character fields, a direction in -1..1 and an
    integer. *)
Theorem read_machine_validation tm lines :
  (description_rejected lines → (read_machine tm lines).1 = false) ∧
  ((read_machine tm lines).1 = true → ¬ description_rejected lines) ∧
  (description_well_formed lines → (read_machine tm lines).1 = true).
Proof.
  split; [|split].
  - intros Hrej. apply not_true_is_false.
    intros Hacc. by apply read_machine_accepts_iff in Hacc.
  - apply read_machine_accepts_iff.
  - intros Hwf. apply read_machine_accepts_iff.
    by apply well_formed_not_rejected.
Qed.

Lemma read_machine_validation_witness :
  (read_machine init ["101"; "x"; "0"; "1"]).1 = false ∧
  ¬ description_rejected scenario_B_lines ∧
  (read_machine init scenario_B_lines).1 = true.
Proof.
  split; [|split].
  - apply (proj1 (read_machine_validation init ["101"; "x"; "0"; "1"])).
    right. left. reflexivity.
  - apply (proj1 (proj2 (read_machine_validation init scenario_B_lines))).
    vm_compute. reflexivity.
  - apply (proj2 (proj2 (read_machine_validation init scenario_B_lines))).
    split; [simpl; lia|].
    split; [by exists 0|]. split; [by exists 0|]. split; [by exists 9|].
    apply Forall_cons. split; [|apply Forall_nil].
    exists "0", "1", "0", "1", "1", [], 0, 1, 1.
    repeat split; try reflexivity. simpl. lia.
Defined.

(** C2 as stated fails: a transition line with six fields violates the
    rule of exactly five fields, and the description is accepted. *)
Lemma read_machine_accepts_extra_field :
  ¬ stated_rules extra_field_lines ∧
  (read_machine init extra_field_lines).1 = true.
Proof.
  split; [|vm_compute; reflexivity].
  intros (_ & _ & _ & _ & Hall).
  apply Forall_cons in Hall as [(f0 & f1 & f2 & f3 & f4 & st & d & ns
                                  & Hsplit & _) _].
  vm_compute in Hsplit. discriminate.
Qed.

(** An empty read field (two adjacent spaces) passes the length test of
    line 166, which only refuses fields longer than one character. *)
Lemma read_machine_accepts_empty_field :
  ¬ stated_rules empty_field_lines ∧
  ¬ description_well_formed empty_field_lines ∧
  (read_machine init empty_field_lines).1 = true ∧
  (action_table (read_machine init empty_field_lines).2 !! 0)
    ≫= (.!! EmptyString) = Some (mk_action "1" 1 1).
Proof.
  split; [|split; [|split; vm_compute; reflexivity]].
  - intros (_ & _ & _ & _ & Hall).
    apply Forall_cons in Hall as [(f0 & f1 & f2 & f3 & f4 & st & d & ns
                                    & Hsplit & Hl1 & _) _].
    vm_compute in Hsplit. by simplify_eq.
  - intros (_ & _ & _ & _ & Hall).
    apply Forall_cons in Hall as [(f0 & f1 & f2 & f3 & f4 & more & st & d & ns
                                    & Hsplit & Hl1 & _) _].
    vm_compute in Hsplit. by simplify_eq.
Qed.

(** An accepted description yields a table whose actions move by -1, 0
    or 1, and the header values as parsed. *)
Lemma table_getitem_moves_ok tm k acts tm1 :
  moves_ok (action_table tm) → table_getitem tm k = (acts, tm1) →
  moves_ok (action_table tm1) ∧
  map_Forall (λ _ a, -1 <= direction a <= 1) acts.
Proof.
  unfold table_getitem, Py.defaultdict_getitem, moves_ok. intros Hm Hg.
  destruct (action_table tm !! k) as [v|] eqn:Hk; simplify_eq/=.
  - split; [done|]. exact (map_Forall_lookup_1 _ _ _ _ Hm Hk).
  - split; [|apply map_Forall_empty].
    apply map_Forall_insert_2; [apply map_Forall_empty|done].
Qed.

Lemma read_action_line_moves_ok tm l tm' :
  moves_ok (action_table tm) → read_action_line tm l = Parsed tm' →
  moves_ok (action_table tm').
Proof.
  unfold read_action_line. intros Hm.
  destruct (Py.split " " l) as [|f0 [|f1 [|f2 [|f3 [|f4 more]]]]];
    try done.
  repeat case_decide; try done.
  destruct (Py.int f3) as [d|]; [|done].
  case_decide; [done|].
  destruct (Py.int f4) as [ns|]; [|done].
  destruct (Py.int f0) as [st|]; [|done].
  destruct (table_getitem tm st) as [acts tm1] eqn:Hg.
  destruct (table_getitem_moves_ok _ _ _ _ Hm Hg) as [Hm1 Hacts].
  intros [= <-]. simpl. unfold moves_ok.
  apply map_Forall_insert_2; [|done].
  apply map_Forall_insert_2; [simpl; lia|done].
Qed.

Lemma read_action_lines_moves_ok ls : ∀ tm tm',
  moves_ok (action_table tm) → read_action_lines tm ls = Parsed tm' →
  moves_ok (action_table tm').
Proof.
  induction ls as [|l ls IH]; intros tm tm' Hm; simpl.
  - by intros [= <-].
  - destruct (read_action_line tm l) as [| |tm1] eqn:Hl; [done..|].
    apply IH. by eapply read_action_line_moves_ok.
Qed.

Lemma read_machine_moves_ok tm lines tm' :
  moves_ok (action_table tm) → read_machine tm lines = (true, tm') →
  moves_ok (action_table tm').
Proof.
  unfold read_machine. intros Hm.
  destruct lines as [|l0 [|l1 [|l2 [|l3 rest]]]]; try done.
  destruct (Py.int l1); [|done]. destruct (Py.int l2); [|done].
  destruct (Py.int l3); [|done].
  destruct (read_action_lines _ rest) as [| |tm1] eqn:Hr; [done..|].
  intros [= <-]. by eapply read_action_lines_moves_ok; [|exact Hr].
Qed.

(** The bounds invariant for a machine read from a description: when the
    reader accepts and the parsed head lies inside the tape, every
    configuration of the run keeps the head inside the tape. *)
Lemma loaded_machine_in_bounds lines tm tm' :
  read_machine init lines = (true, tm) →
  in_bounds tm →
  reaches tm tm' →
  in_bounds tm' ∧
  (length (tape_contents tm) <= length (tape_contents tm'))%nat.
Proof.
  intros Hread Hb Hr.
  assert (moves_ok (action_table tm)) as Hm.
  { eapply read_machine_moves_ok; [|exact Hread]. apply map_Forall_empty. }
  by destruct (reaches_in_bounds _ _ Hm Hb Hr) as (_ & ? & ?).
Qed.

(** ** How a pass through the loop ends *)

Lemma index_None_iff len i :
  Py.index len i = None ↔ i < - Z.of_nat len ∨ Z.of_nat len <= i.
Proof.
  unfold Py.index. repeat case_decide; split; (done || lia).
Qed.

Lemma index_Some_range len i n :
  Py.index len i = Some n → - Z.of_nat len <= i < Z.of_nat len.
Proof.
  unfold Py.index. intros Hn. repeat case_decide; simplify_eq; lia.
Qed.

Lemma getitem_None_iff {A} (l : list A) i :
  Py.getitem l i = None ↔ Py.index (length l) i = None.
Proof.
  unfold Py.getitem. destruct (Py.index (length l) i) as [n|] eqn:Hn; [|done].
  simpl. apply index_lt in Hn.
  destruct (lookup_lt_is_Some_2 _ _ Hn) as [x ->]. done.
Qed.

Lemma loop_body_ReturnNone tm tm' :
  loop_body tm = ReturnNone tm' ↔ tm' = tm ∧ no_transition tm.
Proof.
  split.
  - unfold loop_body, no_transition. intros Hb.
    destruct (dispatch tm) as [tm1| |a tm1] eqn:Hd; [| done |].
    + pose proof (dispatch_machine tm) as Hm. rewrite Hd in Hm.
      subst tm1. injection Hb as Hb. subst tm'. split; [done|].
      destruct (action_table tm !! state tm) as [acts|] eqn:Hs; [|done].
      rewrite (dispatch_present _ _ Hs) in Hd.
      destruct (Py.getitem _ _) as [c|]; [|done].
      exists c. destruct (acts !! c); [done|].
      by destruct (acts !! "*").
    + by destruct (take_action a tm1).
  - intros [-> Hn]. by apply loop_body_no_transition.
Qed.

Lemma loop_body_Raised tm e tm' :
  loop_body tm = Raised e tm' ↔
  e = IndexError ∧ tm' = tm ∧
  is_Some (action_table tm !! state tm) ∧ head_out_of_range tm.
Proof.
  unfold head_out_of_range. rewrite <- index_None_iff, <- getitem_None_iff.
  split.
  - unfold loop_body. intros Hb.
    destruct (dispatch tm) as [tm1|e1 tm1|a tm1] eqn:Hd; [done| |].
    + pose proof (dispatch_machine tm) as Hm. rewrite Hd in Hm.
      subst tm1. injection Hb as He Hb. subst tm' e1.
      destruct (action_table tm !! state tm) as [acts|] eqn:Hs;
        [|by rewrite dispatch_absent in Hd].
      rewrite (dispatch_present _ _ Hs) in Hd.
      destruct (Py.getitem _ _) as [c|]; [|by injection Hd as <-; eauto].
      destruct (acts !! c); [done|]. by destruct (acts !! "*").
    + destruct (loop_body_Dispatch _ _ _ Hd) as (tm2 & _ & Hb2).
      unfold loop_body in Hb2. rewrite Hd in Hb2. congruence.
  - intros (-> & -> & [acts Hs] & Hg).
    unfold loop_body. by rewrite (dispatch_present _ _ Hs), Hg.
Qed.

Lemma reaches_in_reaches n tm tm' : reaches_in n tm tm' → reaches tm tm'.
Proof. induction 1; eauto using reaches. Qed.

Lemma reaches_reaches_in tm tm' : reaches tm tm' → ∃ n, reaches_in n tm tm'.
Proof.
  induction 1 as [|? ? ? ? ? ? [n IH]]; eauto using reaches_in.
Qed.

Lemma reaches_in_det n tm tm1 tm2 :
  reaches_in n tm tm1 → reaches_in n tm tm2 → tm1 = tm2.
Proof.
  intros H1. revert tm2. induction H1 as [|n tm ta tb _ Hs _ IH];
    intros tm2 H2; inversion H2 as [|? ? tc ? _ Hs' Hr']; subst; [done|].
  apply IH. rewrite Hs in Hs'. by injection Hs' as ->.
Qed.

Lemma reaches_in_snoc n tm tm1 tm2 :
  reaches_in n tm tm1 → state tm1 ≠ halt_state tm1 →
  loop_body tm1 = Stepped tm2 → reaches_in (S n) tm tm2.
Proof.
  induction 1; intros; eauto using reaches_in.
Qed.

Lemma reaches_snoc tm tm1 tm2 :
  reaches tm tm1 → state tm1 ≠ halt_state tm1 →
  loop_body tm1 = Stepped tm2 → reaches tm tm2.
Proof.
  intros Hr Hne Hs. eapply reaches_trans; [exact Hr|].
  eapply reaches_step; eauto using reaches.
Qed.

(** The three ways the loop ends, each with the configuration at which it
    ends. *)
Lemma while_loop_outcome fuel : ∀ tm all r tm',
  while_loop fuel tm all = Some (r, tm') →
  reaches tm tm' ∧
  match r with
  | Trace _ => state tm' = halt_state tm'
  | PyNone => state tm' ≠ halt_state tm' ∧ no_transition tm'
  | Uncaught e =>
      e = IndexError ∧ state tm' ≠ halt_state tm' ∧
      is_Some (action_table tm' !! state tm') ∧ head_out_of_range tm'
  end.
Proof.
  induction fuel as [|fuel IH]; intros tm all r tm'; simpl; [done|].
  destruct (decide (state tm ≠ halt_state tm)) as [Hne|Heq].
  - destruct (loop_body tm) as [tm1|e tm1|tm1] eqn:Hb.
    + intros [= <- <-]. apply loop_body_ReturnNone in Hb as [-> Hn].
      split; [apply reaches_here|done].
    + intros [= <- <-]. apply loop_body_Raised in Hb as (-> & -> & Hs & Ho).
      split; [apply reaches_here|done].
    + intros Hw. destruct (IH _ _ _ _ Hw) as [Hr Hres].
      split; [|done]. by eapply reaches_step.
  - intros [= <- <-]. split; [apply reaches_here|].
    by destruct (decide (state tm = halt_state tm)) as [|Hn];
      [|destruct Heq].
Qed.

(** [execute()] returns [None] exactly when the run reaches a configuration,
    not in the halt state, with no applicable entry. *)
Theorem execute_None_iff tm tm' :
  execute_returns tm PyNone tm' ↔
  reaches tm tm' ∧ state tm' ≠ halt_state tm' ∧ no_transition tm'.
Proof.
  split.
  - intros [fuel Hx]. by apply while_loop_outcome in Hx.
  - intros (Hr & Hne & Hn). by apply no_transition_execute.
Qed.

Lemma execute_None_iff_witness :
  execute_returns scenario_B PyNone scenario_B.
Proof.
  apply (proj2 (execute_None_iff scenario_B scenario_B)).
  split; [apply reaches_here|]. split; [vm_compute; discriminate|].
  vm_compute. exists "0". vm_compute. auto.
Defined.

(** The only exception [execute()] lets escape is [IndexError], and it does
    so exactly when the run reaches a configuration, not in the halt state,
    whose state has entries and whose head is outside the subscripts the
    tape accepts (below [-len] or at least [len]). [KeyError] never
    escapes. *)
Theorem execute_exception_iff tm e tm' :
  execute_returns tm (Uncaught e) tm' ↔
  e = IndexError ∧ reaches tm tm' ∧ state tm' ≠ halt_state tm' ∧
  is_Some (action_table tm' !! state tm') ∧ head_out_of_range tm'.
Proof.
  split.
  - intros [fuel Hx]. apply while_loop_outcome in Hx.
    destruct Hx as (Hr & He & Hne & Hs & Ho). done.
  - intros (-> & Hr & Hne & Hs & Ho).
    destruct (while_loop_reaches _ _ Hr [Py.join (tape_contents tm)])
      as (n & all' & Hfuel).
    exists (n + 1)%nat. unfold execute. rewrite Hfuel. simpl.
    rewrite decide_True by done.
    by rewrite (proj2 (loop_body_Raised tm' IndexError tm')).
Qed.

Lemma execute_exception_iff_witness :
  execute_returns oversized_head_machine (Uncaught IndexError)
    oversized_head_machine.
Proof.
  apply (proj2 (execute_exception_iff oversized_head_machine IndexError
                  oversized_head_machine)).
  split; [reflexivity|]. split; [apply reaches_here|].
  split; [vm_compute; discriminate|].
  split; [vm_compute; eauto|]. right. simpl. lia.
Defined.

(** [execute()] returns a trace exactly when the run reaches a
    configuration in the halt state, and it stops at the first one. *)
Theorem execute_Trace_iff tm tm' :
  (∃ t, execute_returns tm (Trace t) tm') ↔
  reaches tm tm' ∧ state tm' = halt_state tm'.
Proof.
  split.
  - intros (t & fuel & Hx). by apply while_loop_outcome in Hx.
  - intros [Hr Heq].
    destruct (while_loop_reaches _ _ Hr [Py.join (tape_contents tm)])
      as (n & all' & Hfuel).
    exists all', (n + 1)%nat. unfold execute. rewrite Hfuel. simpl.
    by rewrite decide_False by auto.
Qed.

Lemma execute_Trace_iff_witness :
  ∃ t, execute_returns scenario_A (Trace t) scenario_A_final.
Proof.
  apply (proj2 (execute_Trace_iff scenario_A scenario_A_final)).
  split; [|reflexivity].
  eapply reaches_step; [vm_compute; discriminate|vm_compute; reflexivity|].
  eapply reaches_step; [vm_compute; discriminate|vm_compute; reflexivity|].
  apply reaches_here.
Defined.

(** ** The shape of the trace *)

(** What the loop adds to [all]: one snapshot per completed pass, each
    the tape of the configuration reached after that many passes. *)
Lemma while_loop_trace fuel : ∀ tm all t tm',
  while_loop fuel tm all = Some (Trace t, tm') →
  ∃ snaps, t = all ++ snaps ∧
           reaches_in (length snaps) tm tm' ∧
           ∀ i s, snaps !! i = Some s →
                  ∃ tmi, reaches_in (S i) tm tmi ∧
                         s = Py.join (tape_contents tmi).
Proof.
  induction fuel as [|fuel IH]; intros tm all t tm'; simpl; [done|].
  destruct (decide (state tm ≠ halt_state tm)) as [Hne|Heq].
  - destruct (loop_body tm) as [tm1|e tm1|tm1] eqn:Hb; [done..|].
    intros Hw. destruct (IH _ _ _ _ Hw) as (snaps & -> & Hr & Hsn).
    exists (Py.join (tape_contents tm1) :: snaps).
    split; [by rewrite <- app_assoc|].
    split; [simpl; by eapply reaches_in_S|].
    intros [|i] s Hi; simpl in Hi.
    + injection Hi as <-. exists tm1. split; [|done].
      eapply reaches_in_S; eauto using reaches_in.
    + destruct (Hsn _ _ Hi) as (tmi & Hri & ->).
      exists tmi. split; [|done]. by eapply reaches_in_S.
  - intros [= <- <-]. exists []. rewrite app_nil_r.
    split; [done|]. split; [apply reaches_in_O|]. by intros i s.
Qed.

(** A returned trace has one entry per configuration of the run: for a run
    of [n] steps it has [n + 1] entries, the machine is left in the halt
    state, and the last entry is the final tape. *)
Theorem trace_length_and_end tm t tm' :
  execute_returns tm (Trace t) tm' →
  state tm' = halt_state tm' ∧
  ∃ n, reaches_in n tm tm' ∧ length t = S n ∧
       last t = Some (Py.join (tape_contents tm')).
Proof.
  intros [fuel Hx]. pose proof (while_loop_outcome _ _ _ _ _ Hx) as [_ Hh].
  split; [done|].
  destruct (while_loop_trace _ _ _ _ _ Hx) as (snaps & -> & Hr & Hsn).
  exists (length snaps). split; [done|]. split; [done|].
  destruct snaps as [|s0 snaps _] using rev_ind.
  - inversion Hr. by subst.
  - rewrite app_assoc, last_snoc. f_equal.
    destruct (Hsn (length snaps) s0) as (tmi & Hri & ->).
    { by rewrite lookup_app_r, Nat.sub_diag by lia. }
    rewrite length_app in Hr. simpl in Hr.
    rewrite Nat.add_1_r in Hr. by rewrite (reaches_in_det _ _ _ _ Hri Hr).
Qed.

Lemma trace_length_and_end_witness :
  state scenario_A_final = halt_state scenario_A_final ∧
  ∃ n, reaches_in n scenario_A scenario_A_final ∧
       length ["101"; "001"; "001"] = S n ∧
       last ["101"; "001"; "001"]
       = Some (Py.join (tape_contents scenario_A_final)).
Proof.
  apply (trace_length_and_end scenario_A ["101"; "001"; "001"]
           scenario_A_final).
  exists 3%nat. vm_compute. reflexivity.
Defined.

(** Entry [i] of a returned trace is the tape of the configuration reached
    after [i] steps; entry 0 is the initial tape. *)
Theorem trace_entries tm t tm' i s :
  execute_returns tm (Trace t) tm' →
  t !! i = Some s →
  ∃ tmi, reaches_in i tm tmi ∧ s = Py.join (tape_contents tmi).
Proof.
  intros [fuel Hx] Hi.
  destruct (while_loop_trace _ _ _ _ _ Hx) as (snaps & -> & _ & Hsn).
  destruct i as [|i]; simpl in Hi.
  - injection Hi as <-. exists tm. split; [apply reaches_in_O|done].
  - by apply Hsn.
Qed.

Lemma trace_entries_witness :
  ∃ tmi, reaches_in 1 scenario_A tmi ∧
         "001" = Py.join (tape_contents tmi).
Proof.
  apply (trace_entries scenario_A ["101"; "001"; "001"] scenario_A_final
           1 "001").
  - exists 3%nat. vm_compute. reflexivity.
  - reflexivity.
Defined.

(** ** Resuming a run *)





(** ** What a run leaves alone *)

Lemma loop_body_frame tm tm' :
  loop_body tm = Stepped tm' →
  action_table tm' = action_table tm ∧ halt_state tm' = halt_state tm.
Proof.
  intros Hs. destruct (loop_body_Stepped _ _ Hs) as (a & _ & Ht).
  by destruct (take_action_frame _ _ _ Ht) as (? & ? & _).
Qed.

Lemma reaches_frame tm tm' :
  reaches tm tm' →
  action_table tm' = action_table tm ∧ halt_state tm' = halt_state tm.
Proof.
  induction 1 as [|tm ta tb _ Hs _ [IH1 IH2]]; [done|].
  destruct (loop_body_frame _ _ Hs) as [H1 H2]. split; congruence.
Qed.

(** [execute()] never changes the action table nor the halt state,
    whatever it returns or raises: the table is a [defaultdict], but it is
    only subscripted with a state that is already a key. *)
Theorem execute_table_unchanged tm r tm' :
  execute_returns tm r tm' →
  action_table tm' = action_table tm ∧ halt_state tm' = halt_state tm.
Proof.
  intros [fuel Hx]. apply while_loop_outcome in Hx as [Hr _].
  by apply reaches_frame.
Qed.

Lemma execute_table_unchanged_witness :
  action_table scenario_A_final = action_table scenario_A ∧
  halt_state scenario_A_final = halt_state scenario_A.
Proof.
  apply (execute_table_unchanged scenario_A (Trace ["101"; "001"; "001"])
           scenario_A_final).
  exists 3%nat. vm_compute. reflexivity.
Defined.

(** ** Growth of the tape *)

Lemma take_action_grows_by_one a tm tm' :
  take_action a tm = Some tm' →
  (length (tape_contents tm') <= S (length (tape_contents tm)))%nat.
Proof.
  intros Ht. destruct (written a tm) as [tape1|] eqn:Hw.
  - rewrite (take_action_unfold _ _ _ Hw) in Ht. simplify_eq/=.
    apply written_length in Hw.
    repeat case_decide; rewrite ?length_app; simpl; lia.
  - by rewrite take_action_fails in Ht.
Qed.

(** After [n] steps the tape has not shrunk and has gained at most [n]
    cells: a step adds at most one blank. *)
Theorem tape_growth_bound n tm tm' :
  reaches_in n tm tm' →
  (length (tape_contents tm) <= length (tape_contents tm')
   <= length (tape_contents tm) + n)%nat.
Proof.
  induction 1 as [|n tm ta tb _ Hs _ IH]; [lia|].
  destruct (loop_body_Stepped _ _ Hs) as (a & _ & Ht).
  pose proof (take_action_grows _ _ _ Ht).
  pose proof (take_action_grows_by_one _ _ _ Ht). lia.
Qed.

Lemma tape_growth_bound_witness :
  (length (tape_contents underflow_machine)
   <= length ["-"; "0"]
   <= length (tape_contents underflow_machine) + 1)%nat.
Proof.
  apply (tape_growth_bound 1 underflow_machine
           {| head := 0; state := 1; halt_state := 1;
              tape_contents := ["-"; "0"];
              action_table := action_table underflow_machine |}).
  eapply reaches_in_S;
    [vm_compute; discriminate|vm_compute; reflexivity|apply reaches_in_O].
Defined.

(** Moving right from the last cell: the step completes, one blank is
    appended behind the tape as the action's write left it, and the head
    designates that blank. *)
Theorem overflow_growth tm a tm1 :
  dispatch tm = Dispatch a tm1 →
  head tm = Z.of_nat (length (tape_contents tm)) - 1 →
  direction a = 1 →
  ∃ tm', loop_body tm = Stepped tm' ∧
         head tm' = Z.of_nat (length (tape_contents tm)) ∧
         state tm' = new_state a ∧
         tape_contents tm'
         = (if decide (write a ≠ "*")
            then <[pred (length (tape_contents tm)) := write a]>
                   (tape_contents tm)
            else tape_contents tm) ++ ["-"] ∧
         Py.getitem (tape_contents tm') (head tm') = Some "-".
Proof.
  intros Hd Hh Hdir.
  destruct (loop_body_Dispatch _ _ _ Hd) as (tm' & Ht & Hb).
  exists tm'. split; [done|].
  destruct (dispatch_Dispatch _ _ _ Hd) as (_ & acts & c & _ & Hc & _).
  assert (0 < Z.of_nat (length (tape_contents tm))) as Hlen.
  { unfold Py.getitem in Hc.
    destruct (Py.index _ _) as [n|] eqn:Hn; [|done].
    apply index_lt in Hn. lia. }
  remember (if decide (write a ≠ "*")
            then <[pred (length (tape_contents tm)) := write a]>
                   (tape_contents tm)
            else tape_contents tm) as tape1 eqn:Htape1.
  assert (written a tm = Some tape1) as Hwr.
  { subst tape1. unfold written. destruct (decide (write a ≠ "*")); [|done].
    unfold Py.setitem. rewrite index_in_range by lia. simpl.
    do 2 f_equal. lia. }
  pose proof (written_length _ _ _ Hwr) as Hwl.
  rewrite (take_action_unfold _ _ _ Hwr) in Ht.
  injection Ht as <-. simpl.
  destruct (decide (head tm + direction a < 0)) as [?|_]; [lia|].
  destruct (decide (Z.of_nat (length tape1) <= head tm + direction a))
    as [_|?]; [|lia].
  split; [lia|]. split; [done|]. split; [done|].
  unfold Py.getitem. rewrite index_in_range
    by (rewrite length_app, Hwl; simpl; lia).
  simpl. replace (Z.to_nat (head tm + direction a)) with (length tape1) by lia.
  rewrite lookup_app_r by lia. by rewrite Nat.sub_diag.
Qed.

Lemma overflow_growth_witness :
  ∃ tm', loop_body (set_head 2 scenario_A) = Stepped tm' ∧
         head tm' = 3 ∧
         state tm' = 0 ∧
         tape_contents tm' = ["1"; "0"; "0"; "-"] ∧
         Py.getitem (tape_contents tm') (head tm') = Some "-".
Proof.
  apply (overflow_growth (set_head 2 scenario_A) (mk_action "0" 1 0)
           (set_head 2 scenario_A)).
  - vm_compute. reflexivity.
  - reflexivity.
  - reflexivity.
Defined.

(** ** Actions that write *)

(** A step whose dispatched action has a write field other than "*" puts
    that symbol in the cell the head designated before the move and leaves
    every other cell as it was (all one place further when a blank was put
    in front). *)
Theorem write_semantics tm a tm1 n :
  dispatch tm = Dispatch a tm1 →
  write a ≠ "*" →
  Py.index (length (tape_contents tm)) (head tm) = Some n →
  ∃ tm', loop_body tm = Stepped tm' ∧
         tape_contents tm' !! (prepended a tm + n)%nat = Some (write a) ∧
         ∀ i, i ≠ n → (i < length (tape_contents tm))%nat →
              tape_contents tm' !! (prepended a tm + i)%nat
              = tape_contents tm !! i.
Proof.
  intros Hd Hw Hn.
  destruct (loop_body_Dispatch _ _ _ Hd) as (tm' & Ht & Hb).
  exists tm'. split; [done|].
  assert (written a tm = Some (<[n := write a]> (tape_contents tm))) as Hwr.
  { unfold written. rewrite decide_True by done.
    unfold Py.setitem. by rewrite Hn. }
  pose proof (index_lt _ _ _ Hn) as Hlt.
  rewrite (take_action_unfold _ _ _ Hwr) in Ht. simplify_eq/=.
  unfold prepended.
  destruct (decide (head tm + direction a < 0)); simpl.
  - split; [by apply list_lookup_insert_eq|].
    intros i Hi _. by apply list_lookup_insert_ne.
  - case_decide.
    + split.
      * rewrite lookup_app_l by (by rewrite length_insert).
        by apply list_lookup_insert_eq.
      * intros i Hi Hil. rewrite lookup_app_l by (by rewrite length_insert).
        by apply list_lookup_insert_ne.
    + split; [by apply list_lookup_insert_eq|].
      intros i Hi _. by apply list_lookup_insert_ne.
Qed.

Lemma write_semantics_witness :
  ∃ tm', loop_body scenario_A = Stepped tm' ∧
         tape_contents tm' !! (0 + 0)%nat = Some "0" ∧
         ∀ i, i ≠ 0%nat → (i < 3)%nat →
              tape_contents tm' !! (0 + i)%nat
              = tape_contents scenario_A !! i.
Proof.
  apply (write_semantics scenario_A (mk_action "0" 1 0) scenario_A 0).
  - vm_compute. reflexivity.
  - discriminate.
  - reflexivity.
Defined.

(** ** The wildcard *)

(** When the state has no entry for the symbol under the head but has a
    wildcard entry, the step dispatches the wildcard entry and applies it. *)
Theorem wildcard_fallback tm acts c wildcard :
  action_table tm !! state tm = Some acts →
  Py.getitem (tape_contents tm) (head tm) = Some c →
  acts !! c = None →
  acts !! "*" = Some wildcard →
  dispatch tm = Dispatch wildcard tm ∧
  ∃ tm', take_action wildcard tm = Some tm' ∧ loop_body tm = Stepped tm'.
Proof.
  intros Hs Hc He Hw.
  assert (dispatch tm = Dispatch wildcard tm) as Hd
    by (by rewrite (dispatch_present _ _ Hs), Hc, He, Hw).
  split; [done|]. by eapply loop_body_Dispatch.
Qed.

Lemma wildcard_fallback_witness :
  dispatch (set_tape_contents ["b"] precedence_machine)
  = Dispatch (mk_action "w" 0 1) (set_tape_contents ["b"] precedence_machine) ∧
  ∃ tm', take_action (mk_action "w" 0 1)
           (set_tape_contents ["b"] precedence_machine) = Some tm' ∧
         loop_body (set_tape_contents ["b"] precedence_machine) = Stepped tm'.
Proof.
  apply (wildcard_fallback (set_tape_contents ["b"] precedence_machine)
           (<["*" := mk_action "w" 0 1]> (<["a" := mk_action "e" 1 1]> ∅))
           "b" (mk_action "w" 0 1));
    vm_compute; reflexivity.
Defined.

(** The symbol "*" never gets onto a tape that did not hold it: a write
    field "*" means no write, and the tape only grows by blanks. *)
Lemma take_action_no_star a tm tm' :
  "*" ∉ tape_contents tm → take_action a tm = Some tm' →
  "*" ∉ tape_contents tm'.
Proof.
  intros Hno Ht. destruct (written a tm) as [tape1|] eqn:Hw;
    [|by rewrite take_action_fails in Ht].
  rewrite (take_action_unfold _ _ _ Hw) in Ht. simplify_eq/=.
  assert ("*" ∉ tape1) as Hno1.
  { unfold written in Hw. destruct (decide (write a ≠ "*")) as [Hne|];
      [|by simplify_eq].
    unfold Py.setitem in Hw. destruct (Py.index _ _) as [n|]; [|done].
    simplify_eq/=. intros Hin.
    apply list_elem_of_lookup in Hin as [i Hi].
    apply list_lookup_insert_Some in Hi as [(_ & ? & _)|[_ Hi]]; [done|].
    apply Hno. apply list_elem_of_lookup. eauto. }
  destruct (decide (head tm + direction a < 0)).
  - rewrite elem_of_cons. by intros [?|?].
  - case_decide; [|done].
    rewrite elem_of_app, elem_of_cons. by intros [?|[?|?%elem_of_nil]].
Qed.

Theorem wildcard_never_written tm tm' :
  "*" ∉ tape_contents tm → reaches tm tm' → "*" ∉ tape_contents tm'.
Proof.
  intros Hno Hr. induction Hr as [|tm ta tb _ Hs _ IH]; [done|].
  destruct (loop_body_Stepped _ _ Hs) as (a & _ & Ht).
  apply IH. by eapply take_action_no_star.
Qed.

Lemma wildcard_never_written_witness :
  "*" ∉ tape_contents scenario_A_final.
Proof.
  apply (wildcard_never_written scenario_A scenario_A_final).
  - vm_compute. intros H. repeat (apply elem_of_cons in H as [H|H]; [discriminate|]).
    by apply elem_of_nil in H.
  - eapply reaches_step; [vm_compute; discriminate|vm_compute; reflexivity|].
    eapply reaches_step; [vm_compute; discriminate|vm_compute; reflexivity|].
    apply reaches_here.
Defined.

(** ** Heads outside the tape *)

(** A completed step always leaves the head at 0 or above. *)
Lemma step_head_nonnegative tm tm' :
  loop_body tm = Stepped tm' → 0 <= head tm'.
Proof.
  intros Hs. destruct (loop_body_Stepped _ _ Hs) as (a & Hd & Ht).
  destruct (written a tm) as [tape1|] eqn:Hw;
    [|by rewrite take_action_fails in Ht].
  rewrite (take_action_unfold _ _ _ Hw) in Ht. injection Ht as <-.
  simpl. case_decide; lia.
Qed.

(** A step restores the bounds invariant: if the head was below the length
    of the tape before the step, a negative offset that the subscript
    accepted included, and the table moves by -1, 0 or 1, the head is
    inside the tape after the step. *)
Theorem step_restores_bounds tm tm' :
  moves_ok (action_table tm) →
  head tm < Z.of_nat (length (tape_contents tm)) →
  loop_body tm = Stepped tm' →
  in_bounds tm'.
Proof.
  intros Hm Hlt Hs. destruct (loop_body_Stepped _ _ Hs) as (a & Hd & Ht).
  destruct (written a tm) as [tape1|] eqn:Hw;
    [|by rewrite take_action_fails in Ht].
  pose proof (written_length _ _ _ Hw) as Hwl.
  pose proof (dispatch_moves_ok _ _ _ Hm Hd).
  rewrite (take_action_unfold _ _ _ Hw) in Ht. injection Ht as <-.
  unfold in_bounds. simpl.
  repeat case_decide; rewrite ?length_app; simpl; lia.
Qed.

Lemma step_restores_bounds_witness :
  in_bounds {| head := 0; state := 0; halt_state := 1;
               tape_contents := ["1"; "0"; "0"];
               action_table := action_table negative_head_machine |}.
Proof.
  apply (step_restores_bounds negative_head_machine
           {| head := 0; state := 0; halt_state := 1;
              tape_contents := ["1"; "0"; "0"];
              action_table := action_table negative_head_machine |}).
  - unfold moves_ok. apply (bool_decide_unpack _). vm_compute. exact I.
  - simpl. lia.
  - vm_compute. reflexivity.
Defined.

Lemma in_bounds_run_safe tm r tm' :
  moves_ok (action_table tm) → in_bounds tm → execute_returns tm r tm' →
  (r = PyNone ∨ ∃ t, r = Trace t) ∧ in_bounds tm'.
Proof.
  intros Hm Hb [fuel Hx]. apply while_loop_outcome in Hx as [Hr Hres].
  destruct (reaches_in_bounds _ _ Hm Hb Hr) as (_ & Hb' & _).
  split; [|done]. destruct r as [t| |e]; eauto.
  destruct Hres as (_ & _ & _ & Ho). unfold in_bounds in Hb'.
  unfold head_out_of_range in Ho. lia.
Qed.

(** A description that [read_machine] accepts into a fresh machine, with
    its head offset inside the tape, runs without any exception: whenever
    [execute()] returns, it returns [None] or a trace, and the head is
    inside the tape at the end. *)
Theorem loaded_run_raises_nothing lines tm r tm' :
  read_machine init lines = (true, tm) →
  in_bounds tm →
  execute_returns tm r tm' →
  (r = PyNone ∨ ∃ t, r = Trace t) ∧ in_bounds tm'.
Proof.
  intros Hread Hb Hx.
  assert (moves_ok (action_table tm)) as Hm.
  { eapply read_machine_moves_ok; [|exact Hread]. apply map_Forall_empty. }
  by eapply in_bounds_run_safe.
Qed.

Lemma loaded_run_raises_nothing_witness :
  (Trace ["101"; "001"; "001"] = PyNone ∨
   ∃ t, Trace ["101"; "001"; "001"] = Trace t) ∧
  in_bounds scenario_A_final.
Proof.
  apply (loaded_run_raises_nothing scenario_A_lines scenario_A
           (Trace ["101"; "001"; "001"]) scenario_A_final).
  - vm_compute. reflexivity.
  - vm_compute. split; [discriminate|reflexivity].
  - exists 3%nat. vm_compute. reflexivity.
Defined.

(** ** Runs that never end *)

Lemma while_loop_stuck tm :
  state tm ≠ halt_state tm → loop_body tm = Stepped tm →
  ∀ fuel all, while_loop fuel tm all = None.
Proof.
  intros Hne Hs. induction fuel as [|fuel IH]; intros all; simpl; [done|].
  rewrite decide_True by done. rewrite Hs. apply IH.
Qed.

(** [execute()] has no bound on the number of steps: when the dispatched
    action writes nothing, does not move and keeps the state, and the state
    is not the halt state, the call never returns. *)
Theorem stationary_action_never_returns tm a tm1 :
  dispatch tm = Dispatch a tm1 →
  write a = "*" → direction a = 0 → new_state a = state tm →
  0 <= head tm →
  state tm ≠ halt_state tm →
  (∀ fuel, execute fuel tm = None) ∧
  ¬ ∃ r tm', execute_returns tm r tm'.
Proof.
  intros Hd Hw Hdir Hst Hh Hne.
  assert (loop_body tm = Stepped tm) as Hs.
  { destruct (loop_body_Dispatch _ _ _ Hd) as (tm' & Ht & Hb).
    rewrite Hb. f_equal.
    destruct (dispatch_Dispatch _ _ _ Hd) as (_ & acts & c & _ & Hc & _).
    assert (head tm < Z.of_nat (length (tape_contents tm))) as Hlt.
    { unfold Py.getitem in Hc.
      destruct (Py.index _ _) as [n|] eqn:Hn; [|done].
      apply index_Some_range in Hn. lia. }
    assert (written a tm = Some (tape_contents tm)) as Hwr.
    { unfold written. by rewrite decide_False by (by rewrite Hw; intros []). }
    rewrite (take_action_unfold _ _ _ Hwr) in Ht. injection Ht as <-.
    rewrite Hdir, Hst, Z.add_0_r.
    rewrite !decide_False by lia. by destruct tm. }
  assert (∀ fuel, execute fuel tm = None) as Hnone
    by (intros fuel; by apply while_loop_stuck).
  split; [done|]. intros (r & tm' & fuel & Hx). by rewrite Hnone in Hx.
Qed.

Lemma stationary_action_never_returns_witness :
  (∀ fuel, execute fuel stationary_machine = None) ∧
  ¬ ∃ r tm', execute_returns stationary_machine r tm'.
Proof.
  apply (stationary_action_never_returns stationary_machine
           (mk_action "*" 0 0) stationary_machine).
  - vm_compute. reflexivity.
  - reflexivity.
  - reflexivity.
  - reflexivity.
  - simpl. lia.
  - vm_compute. discriminate.
Defined.

(** ** What [read_machine] stores *)

Lemma entry_insert tbl st c0 a s c :
  entry (<[st := <[c0 := a]> (default ∅ (tbl !! st))]> tbl) s c
  = if decide (s = st ∧ c = c0) then Some a else entry tbl s c.
Proof.
  unfold entry. destruct (decide (s = st)) as [->|Hs].
  - rewrite lookup_insert_eq. simpl.
    destruct (decide (c = c0)) as [->|Hc].
    + rewrite lookup_insert_eq. by rewrite decide_True.
    + rewrite lookup_insert_ne by done.
      rewrite decide_False by (by intros [_ ?]).
      by destruct (tbl !! st).
  - rewrite lookup_insert_ne by done.
    by rewrite decide_False by (by intros [? _]).
Qed.

Lemma table_getitem_setitem tm st acts tm1 x :
  table_getitem tm st = (acts, tm1) →
  acts = default ∅ (action_table tm !! st) ∧
  set_action_table (<[st := x]> (action_table tm1)) tm1
  = set_action_table (<[st := x]> (action_table tm)) tm.
Proof.
  unfold table_getitem, Py.defaultdict_getitem.
  destruct (action_table tm !! st) as [v|]; intros [= <- <-]; simpl.
  - done.
  - split; [done|]. unfold set_action_table. simpl.
    by rewrite insert_insert_eq.
Qed.

(** An accepted line of the action table: its fields, and the machine
    with the one entry bound. *)
Lemma read_action_line_Parsed_inv tm l tm' :
  read_action_line tm l = Parsed tm' →
  ∃ f0 f1 f2 f3 f4 more st d ns,
    Py.split " " l = f0 :: f1 :: f2 :: f3 :: f4 :: more ∧
    (String.length f1 <= 1)%nat ∧ (String.length f2 <= 1)%nat ∧
    Py.int f0 = Some st ∧ Py.int f3 = Some d ∧ Z.abs d <= 1 ∧
    Py.int f4 = Some ns ∧
    tm' = set_action_table
            (<[st := <[f1 := mk_action f2 d ns]>
                       (default ∅ (action_table tm !! st))]>
               (action_table tm)) tm.
Proof.
  unfold read_action_line.
  destruct (Py.split " " l) as [|f0 [|f1 [|f2 [|f3 [|f4 more]]]]];
    try done.
  destruct (decide (1 < String.length f1)%nat); [done|].
  destruct (decide (1 < String.length f2)%nat); [done|].
  destruct (Py.int f3) as [d|] eqn:Hd; [|done].
  destruct (decide (1 < Z.abs d)); [done|].
  destruct (Py.int f4) as [ns|] eqn:Hns; [|done].
  destruct (Py.int f0) as [st|] eqn:Hst; [|done].
  destruct (table_getitem tm st) as [acts tm1] eqn:Hg.
  intros [= <-].
  destruct (table_getitem_setitem _ _ _ _
              (<[f1 := mk_action f2 d ns]> acts) Hg) as [-> Heq].
  exists f0, f1, f2, f3, f4, more, st, d, ns.
  repeat split; try done; try lia.
Qed.

Lemma read_action_line_stops tm l tm' :
  read_action_line tm l = ReturnFalse tm' ∨
  read_action_line tm l = ValueError tm' → tm' = tm.
Proof.
  unfold read_action_line.
  destruct (Py.split " " l) as [|f0 [|f1 [|f2 [|f3 [|f4 more]]]]];
    try (intros [?|?]; by simplify_eq).
  repeat case_decide; try (intros [?|?]; by simplify_eq).
  destruct (Py.int f3) as [d|]; [|intros [?|?]; by simplify_eq].
  case_decide; [intros [?|?]; by simplify_eq|].
  destruct (Py.int f4) as [ns|]; [|intros [?|?]; by simplify_eq].
  destruct (Py.int f0) as [st|]; [|intros [?|?]; by simplify_eq].
  destruct (table_getitem tm st). by intros [?|?].
Qed.

(** Whatever stops the loop over the lines, the machine is the initial one
    after some accepted lines. *)
Lemma read_action_lines_rtc ls : ∀ tm,
  rtc line_stored tm (step_machine (read_action_lines tm ls)).
Proof.
  induction ls as [|l ls IH]; intros tm; simpl; [apply rtc_refl|].
  destruct (read_action_line tm l) as [tm1|tm1|tm1] eqn:Hl; simpl.
  - rewrite (read_action_line_stops tm l tm1) by auto. apply rtc_refl.
  - rewrite (read_action_line_stops tm l tm1) by auto. apply rtc_refl.
  - eapply rtc_l; [by exists l|apply IH].
Qed.

Lemma read_machine_rtc tm lines b tm' :
  read_machine tm lines = (b, tm') →
  ∃ tm0, action_table tm0 = action_table tm ∧ rtc line_stored tm0 tm'.
Proof.
  unfold read_machine.
  destruct lines as [|l0 [|l1 [|l2 [|l3 rest]]]];
    try (intros [= <- <-]; exists tm; split; [done|apply rtc_refl]).
  destruct (Py.int l1) as [h|];
    [|intros [= <- <-]; eexists; split; [|apply rtc_refl]; done].
  destruct (Py.int l2) as [s|];
    [|intros [= <- <-]; eexists; split; [|apply rtc_refl]; done].
  destruct (Py.int l3) as [hs|];
    [|intros [= <- <-]; eexists; split; [|apply rtc_refl]; done].
  set (tm0 := set_halt_state _ _).
  pose proof (read_action_lines_rtc rest tm0) as Hrtc.
  destruct (read_action_lines tm0 rest); intros [= <- <-];
    exists tm0; by split.
Qed.

Lemma line_stored_header tm tm' : line_stored tm tm' → same_header tm tm'.
Proof.
  intros [l Hl]. apply read_action_line_Parsed_inv in Hl
    as (f0 & f1 & f2 & f3 & f4 & more & st & d & ns & _ & _ & _ & _ & _ & _
        & _ & ->).
  done.
Qed.

Lemma rtc_line_stored_header tm tm' :
  rtc line_stored tm tm' → same_header tm tm'.
Proof.
  induction 1 as [|tm ta tb Hl _ IH]; [done|].
  apply line_stored_header in Hl. unfold same_header in *.
  destruct Hl as (? & ? & ? & ?), IH as (? & ? & ? & ?).
  repeat split; congruence.
Qed.

Lemma read_action_line_entry tm l tm' s c :
  read_action_line tm l = Parsed tm' →
  entry (action_table tm') s c = entry (action_table tm) s c ∨
  line_key_is l s c ∧
  ∃ a, entry (action_table tm') s c = Some a ∧
       -1 <= direction a <= 1 ∧
       (String.length (write a) <= 1)%nat ∧
       (String.length c <= 1)%nat.
Proof.
  intros Hl.
  apply read_action_line_Parsed_inv in Hl
    as (f0 & f1 & f2 & f3 & f4 & more & st & d & ns & Hsp & H1 & H2 & Hst
        & Hd & Habs & Hns & ->).
  simpl. rewrite entry_insert.
  destruct (decide (s = st ∧ c = f1)) as [[-> ->]|]; [|by left].
  right. split; [by exists f0, f2, f3, f4, more|].
  exists (mk_action f2 d ns). repeat split; simpl; (done || lia).
Qed.

Lemma rtc_line_stored_keys tm tm' s c :
  rtc line_stored tm tm' →
  is_Some (entry (action_table tm) s c) →
  is_Some (entry (action_table tm') s c).
Proof.
  induction 1 as [|tm ta tb [l Hl] _ IH]; [done|]. intros Hk. apply IH.
  destruct (read_action_line_entry _ _ _ s c Hl)
    as [->|(_ & a & -> & _)]; eauto.
Qed.

Lemma rtc_line_stored_valid tm tm' :
  rtc line_stored tm tm' →
  entries_valid (action_table tm) → entries_valid (action_table tm').
Proof.
  induction 1 as [|tm ta tb [l Hl] _ IH]; [done|]. intros Hv. apply IH.
  intros s c a Ha.
  destruct (read_action_line_entry _ _ _ s c Hl)
    as [Heq|(_ & a' & Ha' & Hd & Hw & Hc)].
  - rewrite Heq in Ha. by apply (Hv s c a).
  - rewrite Ha' in Ha. by simplify_eq.
Qed.

Lemma rtc_line_stored_no_empty tm tm' :
  rtc line_stored tm tm' →
  no_empty_state (action_table tm) → no_empty_state (action_table tm').
Proof.
  induction 1 as [|tm ta tb [l Hl] _ IH]; [done|]. intros Hne. apply IH.
  apply read_action_line_Parsed_inv in Hl
    as (f0 & f1 & f2 & f3 & f4 & more & st & d & ns & _ & _ & _ & _ & _ & _
        & _ & ->).
  simpl. intros s acts Hs.
  destruct (decide (s = st)) as [->|Hst].
  - rewrite lookup_insert_eq in Hs. injection Hs as <-.
    apply insert_non_empty.
  - rewrite lookup_insert_ne in Hs by done. by apply (Hne s).
Qed.

Lemma join_list_of_str s : Py.join (Py.list_of_str s) = s.
Proof.
  unfold Py.join. induction s as [|c s IH]; simpl; [done|].
  by rewrite IH.
Qed.

Lemma read_machine_header tm lines tm' :
  read_machine tm lines = (true, tm') →
  ∃ l0 l1 l2 l3 rest,
    lines = l0 :: l1 :: l2 :: l3 :: rest ∧
    tape_contents tm' = Py.list_of_str l0 ∧
    Py.int l1 = Some (head tm') ∧
    Py.int l2 = Some (state tm') ∧
    Py.int l3 = Some (halt_state tm') ∧
    Py.join (tape_contents tm') = l0.
Proof.
  unfold read_machine.
  destruct lines as [|l0 [|l1 [|l2 [|l3 rest]]]]; try done.
  destruct (Py.int l1) as [h|] eqn:H1; [|done].
  destruct (Py.int l2) as [s|] eqn:H2; [|done].
  destruct (Py.int l3) as [hs|] eqn:H3; [|done].
  set (tm0 := set_halt_state _ _).
  pose proof (read_action_lines_rtc rest tm0) as Hrtc.
  destruct (read_action_lines tm0 rest) as [| |tm1]; [done..|].
  intros [= <-]. simpl in Hrtc.
  apply rtc_line_stored_header in Hrtc as (-> & -> & -> & ->).
  exists l0, l1, l2, l3, rest. simpl.
  repeat split; try done. apply join_list_of_str.
Qed.

Lemma read_action_lines_app ls1 : ∀ tm ls2 tm',
  read_action_lines tm (ls1 ++ ls2) = Parsed tm' →
  ∃ tm1, read_action_lines tm ls1 = Parsed tm1 ∧
         read_action_lines tm1 ls2 = Parsed tm'.
Proof.
  induction ls1 as [|l ls1 IH]; intros tm ls2 tm'; simpl; [eauto|].
  destruct (read_action_line tm l) as [| |tm1]; [done..|]. apply IH.
Qed.

Lemma read_action_lines_other_keys ls st c : ∀ tm tm',
  read_action_lines tm ls = Parsed tm' →
  Forall (λ l, ¬ line_key_is l st c) ls →
  entry (action_table tm') st c = entry (action_table tm) st c.
Proof.
  induction ls as [|l ls IH]; intros tm tm'; simpl.
  - by intros [= <-].
  - destruct (read_action_line tm l) as [| |tm1] eqn:Hl; [done..|].
    intros Hls Hall. apply Forall_cons in Hall as [Hno Hall].
    rewrite (IH _ _ Hls Hall).
    by destruct (read_action_line_entry _ _ _ st c Hl) as [?|[? _]].
Qed.

(** An accepted description sets the tape to the characters of its first
    line, whose concatenation is that line again, and the head, the state
    and the halt state to the integers of lines 2 to 4. *)
Theorem accepted_header tm lines tm' :
  read_machine tm lines = (true, tm') →
  ∃ l0 l1 l2 l3 rest,
    lines = l0 :: l1 :: l2 :: l3 :: rest ∧
    tape_contents tm' = Py.list_of_str l0 ∧
    Py.int l1 = Some (head tm') ∧
    Py.int l2 = Some (state tm') ∧
    Py.int l3 = Some (halt_state tm') ∧
    Py.join (tape_contents tm') = l0.
Proof. apply read_machine_header. Qed.

Lemma accepted_header_witness :
  ∃ l0 l1 l2 l3 rest,
    scenario_A_lines = l0 :: l1 :: l2 :: l3 :: rest ∧
    tape_contents scenario_A = Py.list_of_str l0 ∧
    Py.int l1 = Some (head scenario_A) ∧
    Py.int l2 = Some (state scenario_A) ∧
    Py.int l3 = Some (halt_state scenario_A) ∧
    Py.join (tape_contents scenario_A) = l0.
Proof.
  apply (accepted_header init scenario_A_lines scenario_A).
  vm_compute. reflexivity.
Defined.

(** Reading then running: the first entry of the trace of a machine just
    read is the first line of its description, character for character. *)
Theorem first_trace_entry_is_first_line tm0 lines tm t tm' :
  read_machine tm0 lines = (true, tm) →
  execute_returns tm (Trace t) tm' →
  t !! 0%nat = lines !! 0%nat.
Proof.
  intros Hread [fuel Hx].
  destruct (read_machine_header _ _ _ Hread)
    as (l0 & l1 & l2 & l3 & rest & -> & _ & _ & _ & _ & Hjoin).
  destruct (while_loop_trace _ _ _ _ _ Hx) as (snaps & -> & _).
  simpl. by rewrite Hjoin.
Qed.

Lemma first_trace_entry_is_first_line_witness :
  ["101"; "001"; "001"] !! 0%nat = scenario_A_lines !! 0%nat.
Proof.
  apply (first_trace_entry_is_first_line init scenario_A_lines scenario_A
           ["101"; "001"; "001"] scenario_A_final).
  - vm_compute. reflexivity.
  - exists 3%nat. vm_compute. reflexivity.
Defined.

(** A refused description is not without effect. With fewer than four
    lines the machine is left as it was; with four lines or more the tape
    has been replaced by the characters of the first line, whatever the
    returned flag. *)
Theorem refused_description_effects tm lines :
  ((length lines < 4)%nat → read_machine tm lines = (false, tm)) ∧
  ((4 <= length lines)%nat →
   tape_contents (read_machine tm lines).2
   = Py.list_of_str (lines !!! 0%nat)).
Proof.
  unfold read_machine. split.
  - destruct lines as [|l0 [|l1 [|l2 [|l3 rest]]]]; simpl; (done || lia).
  - destruct lines as [|l0 [|l1 [|l2 [|l3 rest]]]]; simpl; try lia.
    intros _.
    destruct (Py.int l1) as [h|]; [|done].
    destruct (Py.int l2) as [s|]; [|done].
    destruct (Py.int l3) as [hs|]; [|done].
    set (tm0 := set_halt_state _ _).
    pose proof (read_action_lines_rtc rest tm0) as Hrtc.
    apply rtc_line_stored_header in Hrtc as (_ & _ & _ & Ht).
    by destruct (read_action_lines tm0 rest).
Qed.

Lemma refused_description_effects_witness :
  read_machine scenario_A ["0"; "0"] = (false, scenario_A) ∧
  (read_machine scenario_A ["abc"; "0"; "0"; "1"; "bad line"]).1 = false ∧
  tape_contents (read_machine scenario_A
                   ["abc"; "0"; "0"; "1"; "bad line"]).2
  = ["a"; "b"; "c"].
Proof.
  split; [|split].
  - apply (proj1 (refused_description_effects scenario_A ["0"; "0"])).
    simpl. lia.
  - vm_compute. reflexivity.
  - apply (proj2 (refused_description_effects scenario_A
                    ["abc"; "0"; "0"; "1"; "bad line"])).
    simpl. lia.
Defined.

(** An accepted line of the action table binds its key and nothing else:
    the entry for its state and read field is the action made of its
    write, direction and new-state fields; every other entry, the tape,
    the head, the state and the halt state are as before. *)
Theorem transition_line_stored tm l tm' :
  read_action_line tm l = Parsed tm' →
  ∃ f0 f1 f2 f3 f4 more st d ns,
    Py.split " " l = f0 :: f1 :: f2 :: f3 :: f4 :: more ∧
    Py.int f0 = Some st ∧ Py.int f3 = Some d ∧ Py.int f4 = Some ns ∧
    entry (action_table tm') st f1 = Some (mk_action f2 d ns) ∧
    (∀ s c, (s, c) ≠ (st, f1) →
            entry (action_table tm') s c = entry (action_table tm) s c) ∧
    same_header tm tm'.
Proof.
  intros Hl.
  apply read_action_line_Parsed_inv in Hl
    as (f0 & f1 & f2 & f3 & f4 & more & st & d & ns & Hsp & H1 & H2 & Hst
        & Hd & Habs & Hns & ->).
  exists f0, f1, f2, f3, f4, more, st, d, ns.
  split; [done|]. split; [done|]. split; [done|]. split; [done|].
  simpl. split; [|split; [|done]].
  - rewrite entry_insert. by rewrite decide_True.
  - intros s c Hne. rewrite entry_insert.
    by rewrite decide_False by (intros [-> ->]; by apply Hne).
Qed.

Lemma transition_line_stored_witness :
  ∃ f0 f1 f2 f3 f4 more st d ns,
    Py.split " " "7 a b -1 8" = f0 :: f1 :: f2 :: f3 :: f4 :: more ∧
    Py.int f0 = Some st ∧ Py.int f3 = Some d ∧ Py.int f4 = Some ns ∧
    entry (action_table (step_machine (read_action_line scenario_A
                                         "7 a b -1 8"))) st f1
    = Some (mk_action f2 d ns) ∧
    (∀ s c, (s, c) ≠ (st, f1) →
            entry (action_table (step_machine (read_action_line scenario_A
                                                 "7 a b -1 8"))) s c
            = entry (action_table scenario_A) s c) ∧
    same_header scenario_A
      (step_machine (read_action_line scenario_A "7 a b -1 8")).
Proof.
  apply (transition_line_stored scenario_A "7 a b -1 8").
  vm_compute. reflexivity.
Defined.

(** Last write wins: in an accepted description, the entry for a state and
    a read field is the action of the last line written for that key. *)
Theorem last_write_wins tm l0 l1 l2 l3 ls1 l ls2 tm'
    f0 f1 f2 f3 f4 more st d ns :
  read_machine tm (l0 :: l1 :: l2 :: l3 :: ls1 ++ l :: ls2) = (true, tm') →
  Py.split " " l = f0 :: f1 :: f2 :: f3 :: f4 :: more →
  Py.int f0 = Some st → Py.int f3 = Some d → Py.int f4 = Some ns →
  Forall (λ l', ¬ line_key_is l' st f1) ls2 →
  entry (action_table tm') st f1 = Some (mk_action f2 d ns).
Proof.
  unfold read_machine. intros Hread Hsp Hst Hd Hns Hall.
  destruct (Py.int l1) as [h|]; [|done].
  destruct (Py.int l2) as [s|]; [|done].
  destruct (Py.int l3) as [hs|]; [|done].
  set (tm0 := set_halt_state _ _) in Hread.
  destruct (read_action_lines tm0 (ls1 ++ l :: ls2)) as [| |tm1] eqn:Hls;
    [done..|].
  injection Hread as ->.
  apply read_action_lines_app in Hls as (tma & _ & Hls). simpl in Hls.
  destruct (read_action_line tma l) as [| |tmb] eqn:Hl; [done..|].
  rewrite (read_action_lines_other_keys _ _ _ _ _ Hls Hall).
  apply read_action_line_Parsed_inv in Hl
    as (g0 & g1 & g2 & g3 & g4 & more' & st' & d' & ns' & Hsp' & _ & _
        & Hst' & Hd' & _ & Hns' & ->).
  rewrite Hsp in Hsp'. simplify_eq. simpl.
  rewrite entry_insert. by rewrite decide_True.
Qed.

Lemma last_write_wins_witness :
  entry (action_table (read_machine init overwrite_lines).2) 0 "1"
  = Some (mk_action "x" (-1) 7).
Proof.
  apply (last_write_wins init "101" "0" "0" "1" ["0 1 0 1 0"] "0 1 x -1 7" []
           (read_machine init overwrite_lines).2
           "0" "1" "x" "-1" "7" [] 0 (-1) 7).
  - vm_compute. reflexivity.
  - reflexivity.
  - reflexivity.
  - reflexivity.
  - reflexivity.
  - apply Forall_nil. exact I.
Defined.

(** [read_machine] never clears the table: every key bound before the call
    is bound after it, whatever the returned flag, so reading a second
    description into the same machine adds to the first. *)
Theorem table_accumulates tm lines b tm' s c :
  read_machine tm lines = (b, tm') →
  is_Some (entry (action_table tm) s c) →
  is_Some (entry (action_table tm') s c).
Proof.
  intros Hread Hk.
  destruct (read_machine_rtc _ _ _ _ Hread) as (tm0 & Htbl & Hrtc).
  apply (rtc_line_stored_keys _ _ _ _ Hrtc). by rewrite Htbl.
Qed.

Lemma table_accumulates_witness :
  is_Some (entry (action_table (read_machine scenario_A scenario_B_lines).2)
             0 "0").
Proof.
  apply (table_accumulates scenario_A scenario_B_lines true
           (read_machine scenario_A scenario_B_lines).2 0 "0").
  - vm_compute. reflexivity.
  - vm_compute. eauto.
Defined.

(** Whatever [read_machine] has stored into a fresh machine, also when it
    ends up refusing the description, passed the tests of line 166: every
    entry moves by -1, 0 or 1 and has a write field and a read key of at
    most one character. *)
Theorem loaded_entries_valid lines b tm s c a :
  read_machine init lines = (b, tm) →
  entry (action_table tm) s c = Some a →
  -1 <= direction a <= 1 ∧
  (String.length (write a) <= 1)%nat ∧
  (String.length c <= 1)%nat.
Proof.
  intros Hread Ha.
  destruct (read_machine_rtc _ _ _ _ Hread) as (tm0 & Htbl & Hrtc).
  refine (rtc_line_stored_valid _ _ Hrtc _ s c a Ha).
  rewrite Htbl. intros s' c' a'. unfold entry. simpl.
  by rewrite lookup_empty.
Qed.

Lemma loaded_entries_valid_witness :
  -1 <= direction (mk_action "*" 1 1) <= 1 ∧
  (String.length (write (mk_action "*" 1 1)) <= 1)%nat ∧
  (String.length "0" <= 1)%nat.
Proof.
  apply (loaded_entries_valid scenario_A_lines true scenario_A 0 "0"
           (mk_action "*" 1 1)).
  - vm_compute. reflexivity.
  - vm_compute. reflexivity.
Defined.

(** The automatic creation of the [defaultdict] leaves no trace: in a
    machine read from a description, whatever the flag, every state that
    is a key of the table has at least one entry. *)
Theorem loaded_no_empty_state lines b tm s acts :
  read_machine init lines = (b, tm) →
  action_table tm !! s = Some acts →
  acts ≠ ∅.
Proof.
  intros Hread Hs.
  destruct (read_machine_rtc _ _ _ _ Hread) as (tm0 & Htbl & Hrtc).
  refine (rtc_line_stored_no_empty _ _ Hrtc _ s acts Hs).
  rewrite Htbl. intros s' acts'. simpl. by rewrite lookup_empty.
Qed.

Lemma loaded_no_empty_state_witness :
  (<["1" := mk_action "0" 1 1]> ∅ : gmap string Action) ≠ ∅.
Proof.
  apply (loaded_no_empty_state scenario_B_lines true scenario_B 0
           (<["1" := mk_action "0" 1 1]> ∅)).
  - vm_compute. reflexivity.
  - vm_compute. reflexivity.
Defined.
